(** * GNSS spoofing detection: the RINEX parsers, the result generator and
      the POST handler of [app/page.tsx], embedded in Rocq.

    Conventions of the embedding.

    - A JavaScript string is a [string]: its characters are the code units
      0..255 (RINEX files are ASCII text).
    - A JavaScript number is kept exact.  Numbers that the code only adds,
      multiplies, divides, floors and compares are rationals ([Q]); numbers
      that go through [Math.sin], [Math.cos] or [Math.sqrt] are reals ([R]).
      Rounding to binary64, overflow and underflow are not modelled.
    - [Math.random] is a stream [rnd : nat -> Q] read through a counter; the
      counter is the state of the monad [Rand].  Each call of [Math.random]
      in the source is one [random] in the model, in evaluation order.
    - [console.log] and the processing delay have no effect on any returned
      value and are left out. *)

From Stdlib Require Import List String Ascii Bool Arith ZArith QArith Qround
  Qminmax DecimalString Reals Qreals Psatz Sorted.
Import ListNotations.

Local Open Scope string_scope.
Local Open Scope list_scope.
Local Open Scope nat_scope.

(** ** JavaScript primitives used by the parsers *)

Module JS.

(** The result of [Number.parseFloat] and of the arithmetic on it. *)
Inductive num : Type :=
| NaN
| Inf (negative : bool)
| Fin (q : Q).

(** ToBoolean on a number: [NaN] and zero are falsy. *)
Definition truthy (n : num) : bool :=
  match n with
  | NaN => false
  | Inf _ => true
  | Fin q => negb (Qeq_bool q 0)
  end.

(** [n || d] *)
Definition orElse (n d : num) : num := if truthy n then n else d.

(** [n >= k] for a finite [k]; every comparison with [NaN] is false. *)
Definition geq (n : num) (k : Q) : bool :=
  match n with
  | NaN => false
  | Inf negative => negb negative
  | Fin q => Qle_bool k q
  end.

(** [parseInt(s) || d] on integers: [None] is [NaN]. *)
Definition intOr (n : option Z) (d : Z) : Z :=
  match n with
  | Some v => if (v =? 0)%Z then d else v
  | None => d
  end.

Definition code (c : ascii) : nat := nat_of_ascii c.

(** [\s] of a regular expression, also what [trim] removes: TAB, LF, VT, FF,
    CR, SPACE and NBSP. *)
Definition isSpace (c : ascii) : bool :=
  let n := code c in
  ((9 <=? n) && (n <=? 13)) || (n =? 32) || (n =? 160).

(** [\d] *)
Definition isDigit (c : ascii) : bool :=
  let n := code c in (48 <=? n) && (n <=? 57).

(** [[A-Z]] *)
Definition isUpper (c : ascii) : bool :=
  let n := code c in (65 <=? n) && (n <=? 90).

Definition digitVal (c : ascii) : Z := Z.of_nat (code c - 48).

Definition isEmpty (s : string) : bool :=
  match s with EmptyString => true | String _ _ => false end.

Fixpoint trimStart (s : string) : string :=
  match s with
  | EmptyString => EmptyString
  | String c s' => if isSpace c then trimStart s' else s
  end.

Fixpoint allSpace (s : string) : bool :=
  match s with
  | EmptyString => true
  | String c s' => isSpace c && allSpace s'
  end.

Fixpoint trimEnd (s : string) : string :=
  match s with
  | EmptyString => EmptyString
  | String c s' => if allSpace s then EmptyString else String c (trimEnd s')
  end.

Definition trim (s : string) : string := trimEnd (trimStart s).

Fixpoint startsWith (p s : string) : bool :=
  match p, s with
  | EmptyString, _ => true
  | String a p', String b s' => Ascii.eqb a b && startsWith p' s'
  | String _ _, EmptyString => false
  end.

Fixpoint includes (p s : string) : bool :=
  startsWith p s ||
  match s with
  | EmptyString => false
  | String _ s' => includes p s'
  end.

Fixpoint drop (n : nat) (s : string) : string :=
  match n, s with
  | O, _ => s
  | S n', String _ s' => drop n' s'
  | S _, EmptyString => EmptyString
  end.

Fixpoint take (n : nat) (s : string) : string :=
  match n, s with
  | S n', String c s' => String c (take n' s')
  | _, _ => EmptyString
  end.

(** [s.substring(a, b)] for [a <= b], the only way the source calls it. *)
Definition substring (a b : nat) (s : string) : string := take (b - a) (drop a s).

(** [content.split(/\r?\n/)] *)
Fixpoint splitLines (s : string) : list string :=
  let keep (c : ascii) (rest : list string) : list string :=
    match rest with
    | h :: t => String c h :: t
    | [] => [String c EmptyString]
    end in
  match s with
  | EmptyString => [EmptyString]
  | String c s' =>
      if Ascii.eqb c "010" then EmptyString :: splitLines s'
      else
        match s' with
        | String d s'' =>
            if Ascii.eqb c "013" && Ascii.eqb d "010"
            then EmptyString :: splitLines s''
            else keep c (splitLines s')
        | EmptyString => keep c (splitLines s')
        end
  end.

(** [s.split(/\s+/)]: the pieces between the maximal runs of white space. *)
Fixpoint splitWsFrom (inRun : bool) (s : string) : list string :=
  match s with
  | EmptyString => [EmptyString]
  | String c s' =>
      if isSpace c then
        if inRun then splitWsFrom true s' else EmptyString :: splitWsFrom true s'
      else
        match splitWsFrom false s' with
        | h :: t => String c h :: t
        | [] => [String c EmptyString]
        end
  end.

Definition splitWs (s : string) : list string := splitWsFrom false s.

(** [arr.slice(a, b)] with the relative indices of the language: a negative
    index counts from the end. *)
Definition relIndex (len k : Z) : Z :=
  if (k <? 0)%Z then Z.max (len + k) 0 else Z.min k len.

Definition slice {A : Type} (a b : Z) (l : list A) : list A :=
  let len := Z.of_nat (List.length l) in
  let from := relIndex len a in
  let to := relIndex len b in
  firstn (Z.to_nat (to - from)) (skipn (Z.to_nat from) l).

(** *** Anchored regular expressions

    The patterns of the source are sequences of character classes with a
    repetition range, anchored at the start.  [matches] is [re.test(s)] for
    such a pattern: it tries every admissible count for each item. *)
Record item : Type := Item { cls : ascii -> bool; lo : nat; hi : option nat }.

Definition belowHi (k : nat) (h : option nat) : bool :=
  match h with
  | None => true
  | Some m => k <? m
  end.

Fixpoint matches (items : list item) (s : string) : bool :=
  match items with
  | [] => true
  | it :: rest =>
      (fix run (k : nat) (s : string) {struct s} : bool :=
         if (if lo it <=? k then matches rest s else false) then true
         else if belowHi k (hi it) then
           match s with
           | String c s' => if cls it c then run (S k) s' else false
           | EmptyString => false
           end
         else false) O s
  end.

Definition star (f : ascii -> bool) : item := Item f 0 None.
Definition plus (f : ascii -> bool) : item := Item f 1 None.
Definition rep (f : ascii -> bool) (a b : nat) : item := Item f a (Some b).
Definition one (f : ascii -> bool) : item := Item f 1 (Some 1).
Definition isChar (a : ascii) : ascii -> bool := Ascii.eqb a.

Fixpoint takeWhile (f : ascii -> bool) (s : string) : string :=
  match s with
  | String c s' => if f c then String c (takeWhile f s') else EmptyString
  | EmptyString => EmptyString
  end.

Fixpoint dropWhile (f : ascii -> bool) (s : string) : string :=
  match s with
  | String c s' => if f c then dropWhile f s' else s
  | EmptyString => EmptyString
  end.

(** [line.match(/^\s*(\d+\.\d+)/)]: the captured group, when it matches. *)
Definition versionMatch (line : string) : option string :=
  let s := dropWhile isSpace line in
  let d1 := takeWhile isDigit s in
  match dropWhile isDigit s with
  | String "." r =>
      let d2 := takeWhile isDigit r in
      if isEmpty d1 || isEmpty d2 then None else Some (d1 ++ "." ++ d2)%string
  | _ => None
  end.

(** *** Numbers from text *)

(** The decimal digits at the front of [s]: their value on top of [acc], how
    many they are, and what follows them. *)
Fixpoint digitsFrom (acc : Z) (n : nat) (s : string) : Z * nat * string :=
  match s with
  | String c s' =>
      if isDigit c then digitsFrom (10 * acc + digitVal c)%Z (S n) s'
      else (acc, n, s)
  | EmptyString => (acc, n, s)
  end.

Definition hexVal (c : ascii) : option Z :=
  let n := code c in
  if (48 <=? n) && (n <=? 57) then Some (Z.of_nat (n - 48))
  else if (97 <=? n) && (n <=? 102) then Some (Z.of_nat (n - 87))
  else if (65 <=? n) && (n <=? 70) then Some (Z.of_nat (n - 55))
  else None.

Fixpoint hexFrom (acc : Z) (n : nat) (s : string) : Z * nat :=
  match s with
  | String c s' =>
      match hexVal c with
      | Some v => hexFrom (16 * acc + v)%Z (S n) s'
      | None => (acc, n)
      end
  | EmptyString => (acc, n)
  end.

(** An optional sign: [true] for a minus. *)
Definition signOf (s : string) : bool * string :=
  match s with
  | String "-" s' => (true, s')
  | String "+" s' => (false, s')
  | _ => (false, s)
  end.

Definition applySign (negative : bool) (v : Z) : Z :=
  if negative then (- v)%Z else v.

(** [Number.parseInt(s)] without a radix: leading white space, a sign, an
    optional [0x] prefix, then the digits; [None] is [NaN]. *)
Definition parseInt (s : string) : option Z :=
  let (negative, body) := signOf (trimStart s) in
  if startsWith "0x" body || startsWith "0X" body then
    let (v, n) := hexFrom 0 0 (drop 2 body) in
    if n =? 0 then None else Some (applySign negative v)
  else
    let '(v, n, _) := digitsFrom 0 0 body in
    if n =? 0 then None else Some (applySign negative v).

(** [parseInt(parts[k])]: an index past the end reads [undefined], which
    parses to [NaN]. *)
Definition parseIntAt (parts : list string) (k : nat) : option Z :=
  match nth_error parts k with
  | Some s => parseInt s
  | None => None
  end.

(** The exponent part [e[+-]digits], taken only when it is complete. *)
Definition exponentOf (s : string) : Z :=
  match s with
  | String c s' =>
      if Ascii.eqb c "e" || Ascii.eqb c "E" then
        let (negative, body) := signOf s' in
        let '(v, n, _) := digitsFrom 0 0 body in
        if n =? 0 then 0%Z else applySign negative v
      else 0%Z
  | EmptyString => 0%Z
  end.

Definition decimalValue (negative : bool) (mantissa : Z) (fracDigits : nat)
    (exponent : Z) : num :=
  Fin (Qred (inject_Z (applySign negative mantissa)
             * 10 ^ (exponent - Z.of_nat fracDigits))).

(** [Number.parseFloat(s)]: the longest prefix of the trimmed text that is a
    decimal literal. *)
Definition parseFloat (s : string) : num :=
  let (negative, body) := signOf (trimStart s) in
  if startsWith "Infinity" body then Inf negative
  else
    let '(ipart, ni, rest) := digitsFrom 0 0 body in
    match rest with
    | String "." rest' =>
        let '(m, nf, rest'') := digitsFrom ipart 0 rest' in
        if (ni =? 0) && (nf =? 0) then NaN
        else decimalValue negative m nf (exponentOf rest'')
    | _ =>
        if ni =? 0 then NaN
        else decimalValue negative ipart 0 (exponentOf rest)
    end.

(** [parseFloat(parts[k])] *)
Definition parseFloatAt (parts : list string) (k : nat) : num :=
  match nth_error parts k with
  | Some s => parseFloat s
  | None => NaN
  end.

(** *** Numbers to text *)

Definition natToString (n : nat) : string :=
  NilZero.string_of_uint (Nat.to_uint n).

(** [n.toString()] of an integer or of [NaN]. *)
Definition intToString (n : option Z) : string :=
  match n with
  | Some v => NilZero.string_of_int (Z.to_int v)
  | None => "NaN"
  end.

(** [s.padStart(2, "0")] *)
Definition padStart2 (s : string) : string :=
  match String.length s with
  | 0 => "00" ++ s
  | 1 => "0" ++ s
  | _ => s
  end.

(** [arr.join(", ")] *)
Fixpoint join (l : list string) : string :=
  match l with
  | [] => ""
  | [a] => a
  | a :: rest => a ++ ", " ++ join rest
  end.

End JS.

(** ** The random source *)

(** A computation that may call [Math.random]: it reads the stream at the
    counter and returns the counter it reached. *)
Definition Rand (A : Type) : Type := (nat -> Q) -> nat -> A * nat.

Definition ret {A : Type} (a : A) : Rand A := fun _ n => (a, n).

Definition bind {A B : Type} (m : Rand A) (k : A -> Rand B) : Rand B :=
  fun rnd n => let p := m rnd n in k (fst p) rnd (snd p).

(** [Math.random()] *)
Definition random : Rand Q := fun rnd n => (rnd n, S n).

Notation "x <- m ;; k" := (bind m (fun x => k))
  (at level 61, m at next level, right associativity).

(** [for (const a of l) st = body(st, a)] *)
Fixpoint foldM {A S : Type} (body : S -> A -> Rand S) (l : list A) (st : S)
    : Rand S :=
  match l with
  | [] => ret st
  | a :: rest => st' <- body st a;; foldM body rest st'
  end.

(** [l.map(f)] for an [f] that draws random numbers, left to right. *)
Fixpoint mapM {A B : Type} (f : A -> Rand B) (l : list A) : Rand (list B) :=
  match l with
  | [] => ret []
  | a :: rest => b <- f a;; bs <- mapM f rest;; ret (b :: bs)
  end.

(** Every value of the stream is in [0, 1), as [Math.random] promises. *)
Definition unitStream (rnd : nat -> Q) : Prop :=
  forall n, (0 <= rnd n /\ rnd n < 1)%Q.

(** ** Data model of the parsers *)

Import JS.

Record Epoch : Type := mkEpoch {
  year : option Z;  (* [None] is [NaN] *)
  month : Z;
  day : Z;
  hour : Z;
  minute : Z;
  second : num;
  flag : Z;
  numSats : Z
}.

Record SatObs : Type := mkSatObs {
  satellite : string;
  pseudorange : num;
  carrierPhase : num;
  doppler : num;
  snr : num
}.

Record Observation : Type := mkObservation {
  epoch : Epoch;
  satellites : list SatObs
}.

Inductive Observable : Type := Pseudorange | CarrierPhase | Doppler | Snr.

Definition observable (f : Observable) (o : SatObs) : num :=
  match f with
  | Pseudorange => pseudorange o
  | CarrierPhase => carrierPhase o
  | Doppler => doppler o
  | Snr => snr o
  end.

Definition setObservable (f : Observable) (v : num) (o : SatObs) : SatObs :=
  match f with
  | Pseudorange => mkSatObs (satellite o) v (carrierPhase o) (doppler o) (snr o)
  | CarrierPhase => mkSatObs (satellite o) (pseudorange o) v (doppler o) (snr o)
  | Doppler => mkSatObs (satellite o) (pseudorange o) (carrierPhase o) v (snr o)
  | Snr => mkSatObs (satellite o) (pseudorange o) (carrierPhase o) (doppler o) v
  end.

(** The value the source substitutes for an observable it did not read, from
    one draw [r] of [Math.random]:
    [20000000 + r * 5000000], [r * 1000], [(r - 0.5) * 2000], [35 + r * 15]. *)
Definition defaultValue (f : Observable) (r : Q) : Q :=
  match f with
  | Pseudorange => 20000000 + r * 5000000
  | CarrierPhase => r * 1000
  | Doppler => (r - 0.5) * 2000
  | Snr => 35 + r * 15
  end.

(** ** parseRinexObservation *)

Record ObsState : Type := mkObsState {
  headerComplete : bool;
  currentEpoch : option Epoch;
  epochData : list SatObs;
  observationTypes : list string;
  rinexVersion : num;
  observations : list Observation
}.

(** The variables of the parser before the first line. *)
Definition obsInit : ObsState := mkObsState false None [] [] (Fin 2) [].

(** [if (currentEpoch && epochData.length > 0) observations.push(...)] *)
Definition flushEpoch (st : ObsState) : list Observation :=
  match currentEpoch st, epochData st with
  | Some e, _ :: _ => observations st ++ [mkObservation e (epochData st)]
  | _, _ => observations st
  end.

(** [/^[A-Z]\d{2}/] *)
Definition satelliteRe : list item := [one isUpper; rep isDigit 2 2].

(** [/^\s*\d{2}\s+\d{1,2}\s+\d{1,2}\s+\d{1,2}\s+\d{1,2}/] *)
Definition epochRe2 : list item :=
  [star isSpace; rep isDigit 2 2; plus isSpace; rep isDigit 1 2;
   plus isSpace; rep isDigit 1 2; plus isSpace; rep isDigit 1 2;
   plus isSpace; rep isDigit 1 2].

(** [/^\s*[\d\-.]/] *)
Definition dataRe2 : list item :=
  [star isSpace; one (fun c => isDigit c || isChar "-" c || isChar "." c)].

(** The header lines: version, observation types of both grammars, and the
    sentinel. *)
Definition obsHeaderLine (st : ObsState) (line : string) : ObsState :=
  let version :=
    if includes "RINEX VERSION" line then
      match versionMatch line with
      | Some v => parseFloat v
      | None => rinexVersion st
      end
    else rinexVersion st in
  let types2 :=
    if includes "# / TYPES OF OBSERV" line then
      filter (fun t => negb (isEmpty t)) (splitWs (trim (substring 6 60 line)))
    else observationTypes st in
  let types3 :=
    if includes "SYS / # / OBS TYPES" line then
      let parts := splitWs (trim line) in
      match parts with
      | "G" :: _ =>
          match parseIntAt parts 1 with
          | Some numObs => slice 2 (2 + numObs) parts
          | None => slice 2 0 parts
          end
      | _ => types2
      end
    else types2 in
  mkObsState (includes "END OF HEADER" line) (currentEpoch st) (epochData st)
    types3 version (observations st).

(** The observable a type code of the header is stored under (version 3). *)
Definition classify3 (obsType : string) : option Observable :=
  if startsWith "C" obsType || String.eqb obsType "P1" || String.eqb obsType "P2"
  then Some Pseudorange
  else if startsWith "L" obsType || String.eqb obsType "L1" || String.eqb obsType "L2"
  then Some CarrierPhase
  else if startsWith "D" obsType || String.eqb obsType "D1" || String.eqb obsType "D2"
  then Some Doppler
  else if startsWith "S" obsType || String.eqb obsType "S1" || String.eqb obsType "S2"
  then Some Snr
  else None.

(** A satellite record under construction: an observable that was not
    assigned yet is absent. *)
Definition Fields : Type := Observable -> option num.

Definition noFields : Fields := fun _ => None.

Definition observable_eqb (a b : Observable) : bool :=
  match a, b with
  | Pseudorange, Pseudorange | CarrierPhase, CarrierPhase
  | Doppler, Doppler | Snr, Snr => true
  | _, _ => false
  end.

Definition assign (f : Observable) (v : num) (fs : Fields) : Fields :=
  fun g => if observable_eqb f g then Some v else fs g.

(** The loop over [j < min(observationTypes.length, values.length)]. *)
Fixpoint mapValues (types values : list string) (fs : Fields) : Fields :=
  match types, values with
  | obsType :: types', token :: values' =>
      let value := orElse (parseFloat token) (Fin 0) in
      mapValues types' values'
        match classify3 obsType with
        | Some f => assign f value fs
        | None => fs
        end
  | _, _ => fs
  end.

(** [if (!satObs.f) satObs.f = <default>] *)
Definition fillDefault (f : Observable) (fs : Fields) : Rand num :=
  match fs f with
  | Some v =>
      if truthy v then ret v
      else r <- random;; ret (Fin (defaultValue f r))
  | None => r <- random;; ret (Fin (defaultValue f r))
  end.

(** A satellite line of version 3. *)
Definition satLine3 (types : list string) (line : string) : Rand SatObs :=
  let satId := substring 0 3 line in
  let values := splitWs (trim (drop 3 line)) in
  let fs := mapValues types values noFields in
  pr <- fillDefault Pseudorange fs;;
  cp <- fillDefault CarrierPhase fs;;
  dp <- fillDefault Doppler fs;;
  sn <- fillDefault Snr fs;;
  ret (mkSatObs satId pr cp dp sn).

(** The epoch line of version 3, which starts with [>]. *)
Definition epoch3 (parts : list string) : Epoch :=
  mkEpoch (Some (intOr (parseIntAt parts 1) 2024))
    (intOr (parseIntAt parts 2) 1) (intOr (parseIntAt parts 3) 1)
    (intOr (parseIntAt parts 4) 0) (intOr (parseIntAt parts 5) 0)
    (orElse (parseFloatAt parts 6) (Fin 0))
    (intOr (parseIntAt parts 7) 0) (intOr (parseIntAt parts 8) 0).

Definition obsBodyLine3 (st : ObsState) (line : string) : Rand ObsState :=
  if startsWith ">" line then
    ret (mkObsState (headerComplete st) (Some (epoch3 (splitWs (trim line)))) []
           (observationTypes st) (rinexVersion st) (flushEpoch st))
  else if (3 <? String.length line) && matches satelliteRe (trim line) then
    satObs <- satLine3 (observationTypes st) line;;
    ret (mkObsState (headerComplete st) (currentEpoch st)
           (epochData st ++ [satObs])
           (observationTypes st) (rinexVersion st) (observations st))
  else ret st.

(** The two-digit year pivot: [if (year < 80) year += 2000
    else if (year < 100) year += 1900].  Both comparisons are false on
    [NaN]. *)
Definition pivotYear (year : option Z) : option Z :=
  match year with
  | Some y =>
      if (y <? 80)%Z then Some (y + 2000)%Z
      else if (y <? 100)%Z then Some (y + 1900)%Z
      else Some y
  | None => None
  end.

(** The epoch line of version 2. *)
Definition epoch2 (parts : list string) : Epoch :=
  mkEpoch (pivotYear (parseIntAt parts 0))
    (intOr (parseIntAt parts 1) 1) (intOr (parseIntAt parts 2) 1)
    (intOr (parseIntAt parts 3) 0) (intOr (parseIntAt parts 4) 0)
    (orElse (parseFloatAt parts 5) (Fin 0))
    (intOr (parseIntAt parts 6) 0) (intOr (parseIntAt parts 7) 0).

(** A satellite named on the epoch line of version 2: every observable is a
    fresh random default. *)
Definition listedSat2 (token : string) : Rand SatObs :=
  r1 <- random;; r2 <- random;; r3 <- random;; r4 <- random;;
  ret (mkSatObs (substring 0 3 token)
         (Fin (defaultValue Pseudorange r1)) (Fin (defaultValue CarrierPhase r2))
         (Fin (defaultValue Doppler r3)) (Fin (defaultValue Snr r4))).

(** [for (j = 8; j < parts.length && j < 8 + numSats; j++)
      if (parts[j] && parts[j].length >= 3) epochData.push(...)] *)
Definition listedSats2 (parts : list string) (numSats : Z) : Rand (list SatObs) :=
  foldM (fun acc token =>
           if 3 <=? String.length token then
             o <- listedSat2 token;; ret (acc ++ [o])
           else ret acc)
        (firstn (Z.to_nat numSats) (skipn 8 parts)) [].

(** The values of a data line of version 2: one every 16 columns, 14 columns
    wide, blank fields skipped. *)
Definition obsValues2 (line : string) : list num :=
  let starts := map (fun k => 16 * k) (seq 0 ((String.length line + 15) / 16)) in
  flat_map (fun pos =>
              let valueStr := trim (substring pos (pos + 14) line) in
              if isEmpty valueStr then []
              else [orElse (parseFloat valueStr) (Fin 0)])
           starts.

(** [if (obsValues[k] && observationTypes[k])
      if (observationTypes[k].startsWith(p) || observationTypes[k] === name)
        sat.f = obsValues[k]] *)
Definition storeValue2 (k : nat) (f : Observable) (p name : string)
    (obsValues : list num) (types : list string) (sat : SatObs) : SatObs :=
  match nth_error obsValues k, nth_error types k with
  | Some v, Some t =>
      if truthy v && negb (isEmpty t) && (startsWith p t || String.eqb t name)
      then setObservable f v sat
      else sat
  | _, _ => sat
  end.

Definition storeValues2 (obsValues : list num) (types : list string)
    (sat : SatObs) : SatObs :=
  storeValue2 3 Snr "S" "S1" obsValues types
    (storeValue2 2 Doppler "D" "D1" obsValues types
       (storeValue2 1 CarrierPhase "L" "L1" obsValues types
          (storeValue2 0 Pseudorange "C" "P1" obsValues types sat))).

(** [epochData[epochData.length - 1]] updated in place. *)
Definition updateLast (f : SatObs -> SatObs) (l : list SatObs) : list SatObs :=
  match rev l with
  | last :: front => rev front ++ [f last]
  | [] => []
  end.

Definition obsBodyLine2 (st : ObsState) (line : string) : Rand ObsState :=
  if matches epochRe2 line then
    let parts := splitWs (trim line) in
    let e := epoch2 parts in
    sats <- (if 8 <? List.length parts then listedSats2 parts (numSats e)
             else ret []);;
    ret (mkObsState (headerComplete st) (Some e) sats
           (observationTypes st) (rinexVersion st) (flushEpoch st))
  else
    match currentEpoch st with
    | Some _ =>
        if (10 <? String.length line) && matches dataRe2 line then
          let obsValues := obsValues2 line in
          match obsValues with
          | _ :: _ =>
              ret (mkObsState (headerComplete st) (currentEpoch st)
                     (updateLast (storeValues2 obsValues (observationTypes st))
                        (epochData st))
                     (observationTypes st) (rinexVersion st) (observations st))
          | [] => ret st
          end
        else ret st
    | None => ret st
    end.

(** One iteration of the loop over the lines. *)
Definition obsLine (st : ObsState) (line : string) : Rand ObsState :=
  if isEmpty (trim line) then ret st
  else if negb (headerComplete st) then ret (obsHeaderLine st line)
  else if geq (rinexVersion st) 3 then obsBodyLine3 st line
  else obsBodyLine2 st line.

Definition parseRinexObservation (content : string) : Rand (list Observation) :=
  st <- foldM obsLine (splitLines content) obsInit;;
  ret (flushEpoch st).

(** ** parseRinexNavigation *)

Record Toc : Type := mkToc {
  toc_year : option Z;  (* [None] is [NaN] *)
  toc_month : Z;
  toc_day : Z;
  toc_hour : Z;
  toc_minute : Z;
  toc_second : num
}.

(** [sqrtA] is the parsed value, or [Math.sqrt(26560000)] when that value is
    falsy. *)
Inductive SqrtA : Type :=
| SqrtAParsed (v : num)
| SqrtADefault.

(** The keys of [satData] are assigned four at a time; each group is present
    or absent as a whole. *)
Record SatData : Type := mkSatData {
  clock : option (Toc * num * num * num);    (* toc, clockBias, clockDrift, clockDriftRate *)
  orbit0 : option (num * num * num * num);   (* iode, crs, deltaN, m0 *)
  orbit1 : option (num * num * num * SqrtA); (* cuc, e, cus, sqrtA *)
  orbit2 : option (num * num * num * num)    (* toe, cic, omega0, cis *)
}.

Record Ephemeris : Type := mkEphemeris {
  eph_satellite : string;
  eph_data : SatData
}.

Record NavState : Type := mkNavState {
  nav_headerComplete : bool;
  currentSat : option string;
  satData : SatData;
  lineCount : nat;
  nav_rinexVersion : num;
  ephemeris : list Ephemeris
}.

Definition emptySatData : SatData := mkSatData None None None None.

Definition navInit : NavState := mkNavState false None emptySatData 0 (Fin 2) [].

Definition isSome {A : Type} (o : option A) : bool :=
  match o with Some _ => true | None => false end.

(** [Object.keys(satData).length > 0] *)
Definition hasKeys (d : SatData) : bool :=
  isSome (clock d) || isSome (orbit0 d) || isSome (orbit1 d) || isSome (orbit2 d).

(** [if (currentSat && Object.keys(satData).length > 0) ephemeris.push(...)] *)
Definition flushSat (st : NavState) : list Ephemeris :=
  match currentSat st with
  | Some sat =>
      if negb (isEmpty sat) && hasKeys (satData st)
      then ephemeris st ++ [mkEphemeris sat (satData st)]
      else ephemeris st
  | None => ephemeris st
  end.

(** [/^\s*\d{1,2}\s/] *)
Definition satNumberRe : list item := [star isSpace; rep isDigit 1 2; one isSpace].

(** The clock terms of a record header, common to both grammars. *)
Definition clockTerms (y : option Z) (parts : list string)
    : Toc * num * num * num :=
  (mkToc y
     (intOr (parseIntAt parts 2) 1) (intOr (parseIntAt parts 3) 1)
     (intOr (parseIntAt parts 4) 0) (intOr (parseIntAt parts 5) 0)
     (orElse (parseFloatAt parts 6) (Fin 0)),
   orElse (parseFloatAt parts 7) (Fin 0),
   orElse (parseFloatAt parts 8) (Fin 0),
   orElse (parseFloatAt parts 9) (Fin 0)).

(** The record header of version 3: constellation letter and PRN. *)
Definition navHeader3 (st : NavState) (line : string) : NavState :=
  if (3 <? String.length line) && matches satelliteRe (trim line) then
    let parts := splitWs (trim line) in
    mkNavState (nav_headerComplete st) (Some (substring 0 3 line))
      (mkSatData
         (Some (clockTerms (Some (intOr (parseIntAt parts 1) 2024)) parts))
         None None None)
      0 (nav_rinexVersion st) (flushSat st)
  else st.

(** The satellite id of version 2: [G] and the number padded to two digits. *)
Definition satName2 (satNum : option Z) : string :=
  ("G" ++ padStart2 (intToString satNum))%string.

(** The clock terms of a record header of version 2: the year is the second
    token, under the two-digit pivot. *)
Definition clock2 (parts : list string) : Toc * num * num * num :=
  clockTerms (pivotYear (parseIntAt parts 1)) parts.

(** The record header of version 2: a bare satellite number and a two-digit
    year. *)
Definition navHeader2 (st : NavState) (line : string) : NavState :=
  if (2 <? String.length line) && matches satNumberRe line then
    let parts := splitWs (trim line) in
    mkNavState (nav_headerComplete st) (Some (satName2 (parseIntAt parts 0)))
      (mkSatData (Some (clock2 parts)) None None None)
      0 (nav_rinexVersion st) (flushSat st)
  else st.

(** [values[k] || 0] *)
Definition valueAt (values : list num) (k : nat) : num :=
  match nth_error values k with
  | Some v => orElse v (Fin 0)
  | None => Fin 0
  end.

(** A continuation line: the line count of the record selects the group of
    orbital elements it fills. *)
Definition navDataLine (st : NavState) (line : string) : NavState :=
  match currentSat st with
  | Some sat =>
      if negb (isEmpty sat) && negb (isEmpty (trim line))
         && negb (matches satelliteRe (trim line))
         && negb (matches satNumberRe line)
      then
        let values :=
          map (fun v => orElse (parseFloat v) (Fin 0)) (splitWs (trim line)) in
        let four := (valueAt values 0, valueAt values 1, valueAt values 2,
                     valueAt values 3) in
        let d := satData st in
        let d' :=
          match lineCount st with
          | 0 => mkSatData (clock d) (Some four) (orbit1 d) (orbit2 d)
          | 1 =>
              mkSatData (clock d) (orbit0 d)
                (Some (valueAt values 0, valueAt values 1, valueAt values 2,
                       if truthy (valueAt values 3)
                       then SqrtAParsed (valueAt values 3) else SqrtADefault))
                (orbit2 d)
          | 2 => mkSatData (clock d) (orbit0 d) (orbit1 d) (Some four)
          | _ => d
          end in
        mkNavState (nav_headerComplete st) (currentSat st) d'
          (S (lineCount st)) (nav_rinexVersion st) (ephemeris st)
      else st
  | None => st
  end.

Definition navHeaderLine (st : NavState) (line : string) : NavState :=
  let version :=
    if includes "RINEX VERSION" line then
      match versionMatch line with
      | Some v => parseFloat v
      | None => nav_rinexVersion st
      end
    else nav_rinexVersion st in
  mkNavState (includes "END OF HEADER" line) (currentSat st) (satData st)
    (lineCount st) version (ephemeris st).

(** One iteration of the loop over the lines. *)
Definition navLine (st : NavState) (line : string) : NavState :=
  if isEmpty (trim line) then st
  else if negb (nav_headerComplete st) then navHeaderLine st line
  else
    navDataLine
      (if geq (nav_rinexVersion st) 3 then navHeader3 st line
       else navHeader2 st line)
      line.

Definition parseRinexNavigation (content : string) : list Ephemeris :=
  flushSat (fold_left navLine (splitLines content) navInit).

(** ** generateRealisticResults *)

Record Position : Type := mkPosition {
  pos_epoch : nat;
  x : R;
  y : R;
  z : R;
  pdop : Q;
  accuracy : Q;
  pos_numSats : Z
}.

Record SatHealth : Type := mkSatHealth {
  sv : string;
  health : Q;
  h_snr : Q;
  elevation : Q;
  azimuth : Q
}.

Record Signal : Type := mkSignal {
  sig_epoch : nat;
  avgSnr : R;
  sig_doppler : R;
  sig_carrierPhase : R
}.

Inductive ThreatLevel : Type := LOW | MEDIUM | HIGH | CRITICAL.

Record Anomaly : Type := mkAnomaly {
  anomalyType : string;
  severity : string;
  count : Z;
  description : string
}.

Record ProcessingInfo : Type := mkProcessingInfo {
  totalEpochs : nat;
  totalSatellites : nat;
  avgSatellitesPerEpoch : Q;
  dataQuality : string
}.

Record DetectionResult : Type := mkDetectionResult {
  threatLevel : ThreatLevel;
  spoofingProbability : Z;
  flaggedEpochs : list nat;
  positionJumps : list nat;
  highPdop : list nat;
  pdopValues : list Q;
  satelliteHealth : list SatHealth;
  positionData : list Position;
  signalData : list Signal;
  anomalies : list Anomaly;
  recommendations : list string;
  processingInfo : ProcessingInfo
}.

(** [a < b] and [a > b] on exact numbers. *)
Definition Qltb (a b : Q) : bool := negb (Qle_bool b a).

(** [Math.round(q)]: the nearest integer, halves upwards. *)
Definition round (q : Q) : Z := Qfloor (q + 0.5)%Q.

(** [set.add(v)] on a [Set], which keeps insertion order. *)
Definition setAdd (ids : list string) (v : string) : list string :=
  if existsb (String.eqb v) ids then ids else ids ++ [v].

Definition commonSats : list string :=
  ["G01"; "G02"; "G03"; "G04"; "G05"; "G06"; "G07"; "G08"; "G09"; "G10"].

(** The ids of the observed satellites, then the common ones, first twelve. *)
Definition satelliteList (obs : list Observation) : list string :=
  let observed :=
    fold_left (fun ids o => fold_left (fun ids sat => setAdd ids (satellite sat))
                              (satellites o) ids)
              obs [] in
  firstn 12 (fold_left setAdd commonSats observed).

(** [i === 15 || i === 32 || i === 41] *)
Definition isSpike (i : nat) : bool := (i =? 15) || (i =? 32) || (i =? 41).

(** One iteration of the loop that builds [positions]. *)
Definition genPosition (i : nat) : Rand Position :=
  r1 <- random;;
  let numVisibleSats := (4 + Qfloor (r1 * 8)%Q)%Z in
  r2 <- random;;
  let avgElevation := (30 + r2 * 45)%Q in
  let pdop0 := (1.5 + (12 - inject_Z numVisibleSats) * 0.3)%Q in
  let pdop1 := (pdop0 + (60 - avgElevation) / 20)%Q in
  r3 <- random;;
  let pdop2 := (pdop1 + r3 * 0.5)%Q in
  pdop3 <- (if isSpike i then r4 <- random;; ret (pdop2 + (4 + r4 * 3))%Q
            else ret pdop2);;
  let pdop4 := Qmax 1 (Qmin 15 pdop3) in
  r5 <- random;;
  r6 <- random;;
  r7 <- random;;
  r8 <- random;;
  ret (mkPosition i
         (4000000 + sin (INR i * 0.1) * 100 + (Q2R r5 - 0.5) * 50)%R
         (3000000 + cos (INR i * 0.1) * 100 + (Q2R r6 - 0.5) * 50)%R
         (5000000 + sin (INR i * 0.05) * 50 + (Q2R r7 - 0.5) * 25)%R
         pdop4 (Qmax 1 (pdop4 * 0.8 + r8)%Q) numVisibleSats).

(** The Euclidean distance between two fixes. *)
Definition distance (prev curr : Position) : R :=
  sqrt ((x curr - x prev) ^ 2 + (y curr - y prev) ^ 2 + (z curr - z prev) ^ 2).

(** The scan of consecutive fixes, from index [i] on with [prev] at
    [i - 1]: index [i] is pushed when the distance exceeds 100. *)
Fixpoint jumpsFrom (i : nat) (prev : Position) (rest : list Position)
    : list nat :=
  match rest with
  | [] => []
  | curr :: rest' =>
      (if Rlt_dec 100 (distance prev curr) then [i] else [])
      ++ jumpsFrom (S i) curr rest'
  end.

(** [for (let i = 1; i < positions.length; i++) ...] *)
Definition detectJumps (positions : list Position) : list nat :=
  match positions with
  | [] => []
  | first :: rest => jumpsFrom 1 first rest
  end.

(** [if (positions[k]) { positions[k].x += dx; ... }] *)
Fixpoint shiftAt (k : nat) (dx dy dz : R) (positions : list Position)
    : list Position :=
  match k, positions with
  | _, [] => []
  | O, p :: rest =>
      mkPosition (pos_epoch p) (x p + dx) (y p + dy) (z p + dz)
        (pdop p) (accuracy p) (pos_numSats p) :: rest
  | S k', p :: rest => p :: shiftAt k' dx dy dz rest
  end.

(** The branch taken when the scan found nothing: three jumps are pushed
    and the three fixes are displaced. *)
Definition artificialJumps : list nat := [16; 33; 42].

Definition displace (positions : list Position) : list Position :=
  shiftAt 42 0 220 (-80) (shiftAt 33 (-180) 0 100 (shiftAt 16 200 150 0 positions)).

Definition withJumps (positions : list Position)
    : list nat * list Position :=
  match detectJumps positions with
  | [] => (artificialJumps, displace positions)
  | found => (found, positions)
  end.

Definition genHealth (satId : string) : Rand SatHealth :=
  r1 <- random;;
  let baseHealth := (0.3 + r1 * 0.7)%Q in
  let h := if String.eqb satId "G02" || String.eqb satId "G04"
           then (baseHealth * 0.4)%Q else baseHealth in
  r2 <- random;;
  r3 <- random;;
  r4 <- random;;
  ret (mkSatHealth satId (Qmax 0.1 h) (30 + r2 * 20)%Q (15 + r3 * 75)%Q (r4 * 360)%Q).

Definition genSignal (i : nat) : Rand Signal :=
  r1 <- random;;
  r2 <- random;;
  r3 <- random;;
  ret (mkSignal i
         (40 + sin (INR i * 0.1) * 5 + Q2R r1 * 3)%R
         (sin (INR i * 0.2) * 1000 + Q2R r2 * 100)%R
         (sin (INR i * 0.15) * 0.5 + Q2R r3 * 0.1)%R).

(** [[...new Set(l)]]: the first occurrence of each element, in order. *)
Definition unique (l : list nat) : list nat :=
  fold_left (fun seen v => if existsb (Nat.eqb v) seen then seen else seen ++ [v])
            l [].

Definition isUnhealthy (s : SatHealth) : bool := Qltb (health s) 0.5%Q.

(** The score before the random term and the clamp. *)
Definition baseScore (flagged jumps unhealthy : nat) : Q :=
  (0 + inject_Z (Z.of_nat flagged) * 5 + inject_Z (Z.of_nat jumps) * 20
   + inject_Z (Z.of_nat unhealthy) * 15)%Q.

(** [Math.min(95, Math.max(5, p))] *)
Definition clamp (p : Q) : Q := Qmin 95 (Qmax 5 p).

(** The threat level of a probability. *)
Definition threatLevelOf (p : Q) : ThreatLevel :=
  if Qltb p 25 then LOW
  else if Qltb p 50 then MEDIUM
  else if Qltb p 75 then HIGH
  else CRITICAL.

Definition severityOf (n high medium : nat) : string :=
  if high <? n then "High" else if medium <? n then "Medium" else "Low".

Definition anomaliesOf (jumps pdops unhealthy : nat) (p : Q) : list Anomaly :=
  [ mkAnomaly "Position Jump" (severityOf jumps 2 0) (Z.of_nat jumps)
      "Sudden position discontinuities detected";
    mkAnomaly "High PDOP" (severityOf pdops 10 5) (Z.of_nat pdops)
      "Poor satellite geometry periods";
    mkAnomaly "Satellite Health" (severityOf unhealthy 3 1) (Z.of_nat unhealthy)
      "Satellites showing suspicious behavior";
    mkAnomaly "Signal Anomalies" "Medium" (Qfloor (p / 20)%Q)
      "Irregular signal characteristics detected" ].

Definition recommendationsOf (level : ThreatLevel) (jumps : list nat)
    (suspicious : list string) : list string :=
  match level with
  | CRITICAL =>
      ["ðŸš¨ CRITICAL THREAT: Immediately cease reliance on GNSS positioning";
       "Switch to alternative navigation methods (INS, visual navigation, etc.)"]
  | HIGH =>
      ["âš ï¸ HIGH THREAT: Exercise extreme caution with GNSS data";
       "Cross-reference position with alternative navigation aids"]
  | _ => []
  end
  ++ match jumps with
     | [] => []
     | _ => [("Investigate position jumps at epochs: "
              ++ join (map natToString jumps))%string]
     end
  ++ match suspicious with
     | [] => []
     | _ => [("Monitor suspicious satellites: " ++ join suspicious)%string]
     end
  ++ ["Log all anomalies and report to relevant authorities";
      "Consider implementing additional GNSS authentication measures"].

Definition qualityOf (n : nat) : string :=
  if 8 <=? n then "Good" else if 6 <=? n then "Fair" else "Poor".

(** The fixes the jump scan runs over: one per epoch, as generated. *)
Definition generatedFixes (numEpochs : nat) : Rand (list Position) :=
  mapM genPosition (seq 0 numEpochs).

(** The part of the generator after the jump scan: PDOP flags, satellite
    health, signal data, score, level, anomalies, recommendations. *)
Definition assess (numEpochs : nat) (sats : list string) (jumps : list nat)
    (positions : list Position) : Rand DetectionResult :=
  let pdops := map pos_epoch (filter (fun p => Qltb 6 (pdop p)) positions) in
  healths <- mapM genHealth sats;;
  signals <- mapM genSignal (seq 0 (List.length positions));;
  let flagged := unique (pdops ++ jumps) in
  let unhealthy := List.length (filter isUnhealthy healths) in
  r <- random;;
  let p := clamp (baseScore (List.length flagged) (List.length jumps) unhealthy
                  + r * 10)%Q in
  let level := threatLevelOf p in
  ret (mkDetectionResult level (round p) flagged jumps pdops
         (map pdop positions) healths positions signals
         (anomaliesOf (List.length jumps) (List.length pdops) unhealthy p)
         (recommendationsOf level jumps (map sv (filter isUnhealthy healths)))
         (mkProcessingInfo numEpochs (List.length sats)
            (inject_Z (round (inject_Z (Z.of_nat (List.length sats)) * 0.8 * 10)%Q) / 10)%Q
            (qualityOf (List.length sats)))).

Definition generateRealisticResults (obs : list Observation)
    (eph : list Ephemeris) : Rand DetectionResult :=
  let numEpochs := Nat.max 50 (List.length obs) in
  let sats := satelliteList obs in
  generated <- generatedFixes numEpochs;;
  let scanned := withJumps generated in
  assess numEpochs sats (fst scanned) (snd scanned).

(** ** The POST handler *)

(** What a [catch] receives: an [Error] with its message, or another value. *)
Inductive exn : Type :=
| ErrorExn (message : string)
| OtherExn.

Record File : Type := mkFile {
  name : string;
  text : string
}.

Record FormData : Type := mkFormData {
  obsFile : option File;
  navFile : option File
}.

Inductive Body : Type :=
| ResultBody (results : DetectionResult)
| ErrorBody (error : string).

Record Response : Type := mkResponse {
  status : Z;
  body : Body
}.

(** The response of the outer [catch]. *)
Definition processingFailed (err : exn) : Response :=
  mkResponse 500
    (ErrorBody ("Processing failed: " ++
                match err with
                | ErrorExn message => message
                | OtherExn => "Unknown error"
                end)%string).

(** [NextResponse.json(results)] *)
Definition ok (results : DetectionResult) : Response :=
  mkResponse 200 (ResultBody results).

Definition badRequest (message : string) : Response :=
  mkResponse 400 (ErrorBody message).

Section Handler.

(** The two parsers as the handler sees them: a call returns a value or
    throws. *)
Variable parseObs : string -> Rand (exn + list Observation).
Variable parseNav : string -> Rand (exn + list Ephemeris).

(** The inner [catch]: results generated from empty lists. *)
Definition synthetic : Rand Response :=
  results <- generateRealisticResults [] [];; ret (ok results).

(** The handler; [request] is the outcome of [request.formData()]. *)
Definition handle (request : exn + FormData) : Rand Response :=
  match request with
  | inl err => ret (processingFailed err)
  | inr formData =>
      match obsFile formData, navFile formData with
      | Some obs, Some nav =>
          if String.length (text obs) <? 100 then
            ret (badRequest "Observation file appears to be too small or empty")
          else if String.length (text nav) <? 100 then
            ret (badRequest "Navigation file appears to be too small or empty")
          else
            parsedObs <- parseObs (text obs);;
            match parsedObs with
            | inl _ => synthetic
            | inr observations =>
                parsedNav <- parseNav (text nav);;
                match parsedNav with
                | inl _ => synthetic
                | inr ephemeris =>
                    results <- generateRealisticResults observations ephemeris;;
                    ret (ok results)
                end
            end
      | _, _ =>
          ret (badRequest
                 "Both observation (.24o) and navigation (.24n) files are required")
      end
  end.

End Handler.

(** The pipeline of the [try] block: both parsers, then the generator. *)
Definition pipeline (obsContent navContent : string) : Rand DetectionResult :=
  observations <- parseRinexObservation obsContent;;
  generateRealisticResults observations (parseRinexNavigation navContent).

Definition POST : exn + FormData -> Rand Response :=
  handle (fun content => observations <- parseRinexObservation content;;
                         ret (inr observations))
         (fun content => ret (inr (parseRinexNavigation content))).

(** * Properties *)

(** ** The random source: counters and lengths *)

Lemma mapM_length {A B : Type} (f : A -> Rand B) (l : list A) rnd n :
  List.length (fst (mapM f l rnd n)) = List.length l.
Proof.
  revert n; induction l as [|a l IH]; intros n; simpl; [reflexivity|].
  unfold bind; simpl. now rewrite IH.
Qed.

Lemma mapM_cons {A B : Type} (f : A -> Rand B) (a : A) (l : list A) rnd n :
  mapM f (a :: l) rnd n =
  (fst (f a rnd n) :: fst (mapM f l rnd (snd (f a rnd n))),
   snd (mapM f l rnd (snd (f a rnd n)))).
Proof. reflexivity. Qed.

(** ** Threat level *)

Lemma Qltb_lt (a b : Q) : Qltb a b = true <-> (a < b)%Q.
Proof.
  unfold Qltb. rewrite negb_true_iff, <- not_true_iff_false, Qle_bool_iff.
  split; [apply Qnot_le_lt | apply Qlt_not_le].
Qed.

Lemma Qltb_ge (a b : Q) : Qltb a b = false <-> (b <= a)%Q.
Proof.
  unfold Qltb. rewrite negb_false_iff. apply Qle_bool_iff.
Qed.

(** C3: the threat level of a probability is LOW below 25, MEDIUM from 25
    and below 50, HIGH from 50 and below 75, CRITICAL from 75 on; the four
    buckets partition the probabilities, and 24, 25, 49, 74 and 75 fall as
    the boundaries say. *)
Theorem threatLevel_buckets :
  (forall p : Q,
      (threatLevelOf p = LOW <-> (p < 25)%Q) /\
      (threatLevelOf p = MEDIUM <-> (25 <= p /\ p < 50)%Q) /\
      (threatLevelOf p = HIGH <-> (50 <= p /\ p < 75)%Q) /\
      (threatLevelOf p = CRITICAL <-> (75 <= p)%Q)) /\
  threatLevelOf 24 = LOW /\ threatLevelOf 25 = MEDIUM /\
  threatLevelOf 49 = MEDIUM /\ threatLevelOf 74 = HIGH /\
  threatLevelOf 75 = CRITICAL.
Proof.
  split; [|repeat split; reflexivity].
  intros p. unfold threatLevelOf.
  destruct (Qltb p 25) eqn:H25; [apply Qltb_lt in H25 | apply Qltb_ge in H25];
  (destruct (Qltb p 50) eqn:H50; [apply Qltb_lt in H50 | apply Qltb_ge in H50]);
  (destruct (Qltb p 75) eqn:H75; [apply Qltb_lt in H75 | apply Qltb_ge in H75]);
  repeat split; intros; try discriminate; try tauto; try lra.
Qed.

(** ** The POST handler *)

(** Both files present and neither below 100 characters. *)
Definition accepted (formData : FormData) : Prop :=
  exists obs nav,
    obsFile formData = Some obs /\ navFile formData = Some nav /\
    100 <= String.length (text obs) /\ 100 <= String.length (text nav).

(** A file is missing or below 100 characters. *)
Definition undersized (formData : FormData) : Prop :=
  obsFile formData = None \/ navFile formData = None \/
  (exists obs, obsFile formData = Some obs /\ String.length (text obs) < 100) \/
  (exists nav, navFile formData = Some nav /\ String.length (text nav) < 100).

Lemma accepted_or_undersized formData : accepted formData \/ undersized formData.
Proof.
  unfold accepted, undersized.
  destruct (obsFile formData) as [obs|] eqn:Ho; [|now right; left].
  destruct (navFile formData) as [nav|] eqn:Hn; [|now right; right; left].
  destruct (Nat.lt_ge_cases (String.length (text obs)) 100) as [H|H];
    [right; right; right; left; now exists obs|].
  destruct (Nat.lt_ge_cases (String.length (text nav)) 100) as [H'|H'];
    [right; right; right; right; now exists nav|].
  left. now exists obs, nav.
Qed.

Lemma handle_accepted parseObs parseNav formData obs nav rnd n :
  obsFile formData = Some obs -> navFile formData = Some nav ->
  100 <= String.length (text obs) -> 100 <= String.length (text nav) ->
  handle parseObs parseNav (inr formData) rnd n =
  (parsedObs <- parseObs (text obs);;
   match parsedObs with
   | inl _ => synthetic
   | inr observations =>
       parsedNav <- parseNav (text nav);;
       match parsedNav with
       | inl _ => synthetic
       | inr ephemeris =>
           results <- generateRealisticResults observations ephemeris;;
           ret (ok results)
       end
   end) rnd n.
Proof.
  intros Ho Hn Lo Ln. unfold handle. rewrite Ho, Hn.
  apply Nat.ltb_ge in Lo, Ln. now rewrite Lo, Ln.
Qed.

(** An accepted request runs the pipeline and answers with its result. *)
Lemma POST_accepted formData obs nav rnd n :
  obsFile formData = Some obs -> navFile formData = Some nav ->
  100 <= String.length (text obs) -> 100 <= String.length (text nav) ->
  POST (inr formData) rnd n =
  (ok (fst (pipeline (text obs) (text nav) rnd n)),
   snd (pipeline (text obs) (text nav) rnd n)).
Proof.
  intros Ho Hn Lo Ln. unfold POST.
  rewrite (handle_accepted _ _ _ _ _ _ _ Ho Hn Lo Ln). reflexivity.
Qed.

(** C7: a request with a missing file, or a file below 100 characters, is
    answered with status 400 and an error message that does not depend on
    the parsers, and no parser has run (the random counter has not moved);
    a request with both files at or above 100 characters is answered with
    status 200 and a result, whatever the parsers do, also if they throw. *)
Theorem undersized_rejected_before_parsing (formData : FormData) :
  (undersized formData ->
   exists message,
     message <> "" /\
     forall parseObs parseNav rnd n,
       handle parseObs parseNav (inr formData) rnd n = (badRequest message, n)) /\
  (accepted formData ->
   forall parseObs parseNav rnd n,
   exists results n',
     handle parseObs parseNav (inr formData) rnd n = (ok results, n')).
Proof.
  split.
  - intros H. unfold handle.
    destruct (obsFile formData) as [obs|] eqn:Ho.
    2:{ eexists; split; [|reflexivity]. discriminate. }
    destruct (navFile formData) as [nav|] eqn:Hn.
    2:{ eexists; split; [|reflexivity]. discriminate. }
    destruct (String.length (text obs) <? 100) eqn:Lo.
    { eexists; split; [|reflexivity]. discriminate. }
    destruct (String.length (text nav) <? 100) eqn:Ln.
    { eexists; split; [|reflexivity]. discriminate. }
    exfalso. apply Nat.ltb_ge in Lo, Ln.
    destruct H as [H|[H|[(o & H & L)|(o & H & L)]]];
      try congruence;
      [assert (o = obs) by congruence | assert (o = nav) by congruence];
      subst o; lia.
  - intros (obs & nav & Ho & Hn & Lo & Ln) parseObs parseNav rnd n.
    rewrite (handle_accepted _ _ _ _ _ _ _ Ho Hn Lo Ln).
    unfold bind at 1.
    destruct (fst (parseObs (text obs) rnd n)) as [e|observations].
    { do 2 eexists. reflexivity. }
    unfold bind at 1.
    destruct (fst (parseNav (text nav) rnd _)) as [e|eph].
    { do 2 eexists. reflexivity. }
    do 2 eexists. reflexivity.
Qed.

(** C9: when a request passes the size check and a parser throws, the
    handler answers with status 200 and the result generated from empty
    observation and ephemeris lists, at the random counter the failed parse
    left; the exception is not part of the response. *)
Theorem parser_exception_answers_synthetic
    (parseObs : string -> Rand (exn + list Observation))
    (parseNav : string -> Rand (exn + list Ephemeris))
    (formData : FormData) (obs nav : File) (rnd : nat -> Q) (n : nat) :
  obsFile formData = Some obs -> navFile formData = Some nav ->
  100 <= String.length (text obs) -> 100 <= String.length (text nav) ->
  (exists e, fst (parseObs (text obs) rnd n) = inl e) \/
  (exists observations e,
      fst (parseObs (text obs) rnd n) = inr observations /\
      fst (parseNav (text nav) rnd (snd (parseObs (text obs) rnd n))) = inl e) ->
  exists n0,
    handle parseObs parseNav (inr formData) rnd n =
    (mkResponse 200 (ResultBody (fst (generateRealisticResults [] [] rnd n0))),
     snd (generateRealisticResults [] [] rnd n0)).
Proof.
  intros Ho Hn Lo Ln H.
  rewrite (handle_accepted _ _ _ _ _ _ _ Ho Hn Lo Ln).
  unfold bind at 1.
  destruct H as [(e & He)|(observations & e & Hobs & He)].
  - rewrite He. exists (snd (parseObs (text obs) rnd n)). reflexivity.
  - rewrite Hobs. unfold bind at 1. rewrite He.
    exists (snd (parseNav (text nav) rnd (snd (parseObs (text obs) rnd n)))).
    reflexivity.
Qed.

Definition blank100 : string :=
  "                                                                                                    ".

Lemma parser_exception_answers_synthetic_witness :
  exists n0,
    handle (fun _ => ret (inl (ErrorExn "unexpected token")))
           (fun content => ret (inr (parseRinexNavigation content)))
           (inr (mkFormData (Some (mkFile "a.24o" blank100))
                            (Some (mkFile "a.24n" blank100))))
           (fun _ => 0.5%Q) 0 =
    (mkResponse 200
       (ResultBody (fst (generateRealisticResults [] [] (fun _ => 0.5%Q) n0))),
     snd (generateRealisticResults [] [] (fun _ => 0.5%Q) n0)).
Proof.
  apply (parser_exception_answers_synthetic
           (fun _ => ret (inl (ErrorExn "unexpected token")))
           (fun content => ret (inr (parseRinexNavigation content)))
           (mkFormData (Some (mkFile "a.24o" blank100))
                       (Some (mkFile "a.24n" blank100)))
           (mkFile "a.24o" blank100) (mkFile "a.24n" blank100)).
  - reflexivity.
  - reflexivity.
  - vm_compute. lia.
  - vm_compute. lia.
  - left. exists (ErrorExn "unexpected token"). reflexivity.
Defined.

(** ** Epoch count *)

Lemma totalEpochs_generate obs eph rnd n :
  totalEpochs (processingInfo (fst (generateRealisticResults obs eph rnd n))) =
  Nat.max 50 (List.length obs).
Proof. reflexivity. Qed.

(** C10: the reported totalEpochs is the larger of 50 and the number of
    epochs the observation parser returned, for the generator on any
    observation list and for the pipeline on any pair of file contents; it is
    never below 50. *)
Theorem totalEpochs_is_max_50_parsed :
  (forall obs eph rnd n,
      totalEpochs (processingInfo (fst (generateRealisticResults obs eph rnd n)))
      = Nat.max 50 (List.length obs)) /\
  (forall obsContent navContent rnd n,
      let parsed := fst (parseRinexObservation obsContent rnd n) in
      let results := fst (pipeline obsContent navContent rnd n) in
      totalEpochs (processingInfo results) = Nat.max 50 (List.length parsed) /\
      50 <= totalEpochs (processingInfo results)) /\
  totalEpochs (processingInfo (fst (generateRealisticResults [] [] (fun _ => 0%Q) 0)))
  = 50.
Proof.
  split; [|split].
  - intros. apply totalEpochs_generate.
  - intros obsContent navContent rnd n parsed results.
    assert (E : totalEpochs (processingInfo results)
                = Nat.max 50 (List.length parsed)) by reflexivity.
    split; [exact E|]. rewrite E. apply Nat.le_max_l.
  - reflexivity.
Qed.

(** ** Two-digit years *)

Definition tocOf (c : Toc * num * num * num) : Toc := fst (fst (fst c)).

Lemma parseInt_two_digits (d1 d2 : ascii) :
  isDigit d1 = true -> isDigit d2 = true ->
  parseInt (String d1 (String d2 "")) = Some (10 * digitVal d1 + digitVal d2)%Z /\
  (0 <= 10 * digitVal d1 + digitVal d2 < 100)%Z.
Proof.
  intros H1 H2.
  destruct d1 as [[] [] [] [] [] [] [] []]; vm_compute in H1; try discriminate H1;
  destruct d2 as [[] [] [] [] [] [] [] []]; vm_compute in H2; try discriminate H2;
  vm_compute; (split; [reflexivity | split; [discriminate | reflexivity]]).
Qed.

Definition LF : string := String "010" "".

Definition obsFile2 (yy : string) : string :=
  ("     2.11           OBSERVATION DATA    G (GPS)             RINEX VERSION / TYPE" ++ LF ++
   "     1    C1                                                # / TYPES OF OBSERV" ++ LF ++
   "                                                            END OF HEADER" ++ LF ++
   " " ++ yy ++ "  1  1  0  0  0.0000000  0  1 G01" ++ LF ++
   "  20123456.789" ++ LF)%string.

Definition navFile2 (yy : string) : string :=
  ("     2.11           N: GPS NAV DATA                         RINEX VERSION / TYPE" ++ LF ++
   "                                                            END OF HEADER" ++ LF ++
   " 1 " ++ yy ++ "  1  1  0  0  0.0 1.0D-04 2.0D-11 0.0D+00" ++ LF ++
   "    1.0D+01 2.5D+00 4.0D-09 1.0D+00" ++ LF)%string.

(** The years of the epochs of an observation file, and of the clock
    reference times of a navigation file. *)
Definition epochYears (content : string) (rnd : nat -> Q) : list (option Z) :=
  map (fun o => year (epoch o)) (fst (parseRinexObservation content rnd 0)).

Definition tocYears (content : string) : list (option Z) :=
  map (fun e => match clock (eph_data e) with
                | Some c => toc_year (tocOf c)
                | None => None
                end)
      (parseRinexNavigation content).

(** C6: a two-digit year token of value v becomes v + 2000 when v < 80 and
    v + 1900 when 80 <= v < 100, on the epoch line of a version-2
    observation file (first token) and on the record header of a version-2
    navigation file (second token); files with the tokens 79, 85 and 00 parse
    to the years 2079, 1985 and 2000 with both parsers. *)
Theorem two_digit_year_pivot (d1 d2 : ascii) (sat : string) (rest : list string) :
  isDigit d1 = true -> isDigit d2 = true ->
  let token := String d1 (String d2 "") in
  let v := (10 * digitVal d1 + digitVal d2)%Z in
  (0 <= v < 100)%Z /\
  year (epoch2 (token :: rest))
  = Some (if (v <? 80)%Z then v + 2000 else v + 1900)%Z /\
  toc_year (tocOf (clock2 (sat :: token :: rest)))
  = Some (if (v <? 80)%Z then v + 2000 else v + 1900)%Z /\
  (forall rnd,
      epochYears (obsFile2 "79") rnd = [Some 2079%Z] /\
      epochYears (obsFile2 "85") rnd = [Some 1985%Z] /\
      epochYears (obsFile2 "00") rnd = [Some 2000%Z]) /\
  tocYears (navFile2 "79") = [Some 2079%Z] /\
  tocYears (navFile2 "85") = [Some 1985%Z] /\
  tocYears (navFile2 "00") = [Some 2000%Z].
Proof.
  intros H1 H2 token v.
  destruct (parseInt_two_digits d1 d2 H1 H2) as [P B]. fold v in P, B.
  assert (Y : pivotYear (Some v)
              = Some (if (v <? 80)%Z then v + 2000 else v + 1900)%Z).
  { unfold pivotYear. destruct (v <? 80)%Z; [reflexivity|].
    destruct (v <? 100)%Z eqn:E; [reflexivity|]. apply Z.ltb_ge in E. lia. }
  split; [exact B|].
  split.
  { change (year (epoch2 (token :: rest))) with (pivotYear (parseInt token)).
    unfold token. rewrite P. exact Y. }
  split.
  { change (toc_year (tocOf (clock2 (sat :: token :: rest))))
      with (pivotYear (parseInt token)).
    unfold token. rewrite P. exact Y. }
  split; [intros rnd; repeat split; vm_compute; reflexivity|].
  repeat split; vm_compute; reflexivity.
Qed.

Lemma two_digit_year_pivot_witness :
  (0 <= 10 * digitVal "7" + digitVal "9" < 100)%Z /\
  year (epoch2 ["79"; "1"; "1"; "0"; "0"; "0.0"; "0"; "1"]) = Some 2079%Z.
Proof.
  pose proof (two_digit_year_pivot "7" "9" "1"
                ["1"; "1"; "0"; "0"; "0.0"; "0"; "1"] eq_refl eq_refl) as H.
  split; [apply H | apply H].
Defined.

(** ** The jump scan on the generated fixes *)

Local Open Scope R_scope.

Lemma unitStream_Q2R rnd k : unitStream rnd -> 0 <= Q2R (rnd k) < 1.
Proof.
  intros U. destruct (U k) as [H0 H1].
  apply Qle_Rle in H0. apply Qlt_Rlt in H1.
  rewrite RMicromega.Q2R_0 in H0. rewrite RMicromega.Q2R_1 in H1.
  split; assumption.
Qed.

Lemma sin_small t : 0 < t < 1 -> 0 < sin t < t.
Proof.
  intros [H0 H1]. split; [|now apply sin_lt_x].
  apply sin_gt_0; [assumption|]. pose proof PI2_1. lra.
Qed.

(** Over a step [0 < a - b < 2] the sine and the cosine move by at most
    the step. *)
Lemma sin_step a b : 0 < a - b < 2 -> - (a - b) <= sin a - sin b <= a - b.
Proof.
  intros H. rewrite form4.
  pose proof (COS_bound ((a + b) / 2)) as C.
  pose proof (sin_small ((a - b) / 2) ltac:(lra)) as S.
  split; nra.
Qed.

Lemma cos_step a b : 0 < a - b < 2 -> - (a - b) <= cos a - cos b <= a - b.
Proof.
  intros H. rewrite form2.
  pose proof (SIN_bound ((a + b) / 2)) as C.
  pose proof (sin_small ((a - b) / 2) ltac:(lra)) as S.
  split; nra.
Qed.

(** The noise-free track the generated fixes follow. *)
Definition trackX (i : nat) : R := 4000000 + sin (INR i * 0.1) * 100.
Definition trackY (i : nat) : R := 3000000 + cos (INR i * 0.1) * 100.
Definition trackZ (i : nat) : R := 5000000 + sin (INR i * 0.05) * 50.

(** A fix of epoch [i] within the noise band of the track. *)
Definition onTrack (i : nat) (p : Position) : Prop :=
  pos_epoch p = i /\
  -25 <= x p - trackX i <= 25 /\
  -25 <= y p - trackY i <= 25 /\
  -12.5 <= z p - trackZ i <= 12.5.

Fixpoint tracked (i : nat) (l : list Position) : Prop :=
  match l with
  | [] => True
  | p :: rest => onTrack i p /\ tracked (S i) rest
  end.

Lemma genPosition_onTrack i rnd n :
  unitStream rnd -> onTrack i (fst (genPosition i rnd n)).
Proof.
  intros U. unfold genPosition, onTrack, trackX, trackY, trackZ, bind, random, ret.
  destruct (isSpike i); simpl;
    repeat match goal with
           | |- context [Q2R (rnd ?k)] =>
               lazymatch goal with
               | H : 0 <= Q2R (rnd k) < 1 |- _ => fail
               | _ => pose proof (unitStream_Q2R rnd k U)
               end
           end;
    (split; [reflexivity|]); repeat split; lra.
Qed.

Lemma generated_tracked k a rnd n :
  unitStream rnd -> tracked a (fst (mapM genPosition (seq a k) rnd n)).
Proof.
  intros U. revert a n. induction k as [|k IH]; intros a n; simpl; [exact I|].
  unfold bind; simpl. split; [now apply genPosition_onTrack | apply IH].
Qed.

Lemma onTrack_close i prev curr :
  onTrack i prev -> onTrack (S i) curr -> distance prev curr < 100.
Proof.
  intros (_ & Hx & Hy & Hz) (_ & Hx' & Hy' & Hz').
  unfold trackX, trackY, trackZ in *. rewrite S_INR in *.
  pose proof (sin_step ((INR i + 1) * 0.1) (INR i * 0.1) ltac:(lra)) as Sx.
  pose proof (cos_step ((INR i + 1) * 0.1) (INR i * 0.1) ltac:(lra)) as Sy.
  pose proof (sin_step ((INR i + 1) * 0.05) (INR i * 0.05) ltac:(lra)) as Sz.
  unfold distance.
  set (dx := x curr - x prev) in *.
  set (dy := y curr - y prev) in *.
  set (dz := z curr - z prev) in *.
  assert (Bx : -60 <= dx <= 60) by (unfold dx; lra).
  assert (By : -60 <= dy <= 60) by (unfold dy; lra).
  assert (Bz : -27.5 <= dz <= 27.5) by (unfold dz; lra).
  assert (S : dx ^ 2 + dy ^ 2 + dz ^ 2 < 100 ^ 2) by nra.
  rewrite <- (sqrt_pow2 100) by lra.
  apply sqrt_lt_1; [nra | nra | exact S].
Qed.

Lemma tracked_no_jump i prev rest :
  onTrack i prev -> tracked (S i) rest -> forall k, jumpsFrom k prev rest = [].
Proof.
  revert i prev. induction rest as [|curr rest IH]; intros i prev Hp Hr k;
    simpl; [reflexivity|].
  destruct Hr as [Hc Hr].
  pose proof (onTrack_close i prev curr Hp Hc) as D.
  destruct (Rlt_dec 100 (distance prev curr)) as [L|_]; [lra|].
  simpl. now apply (IH (S i)).
Qed.

(** The scan finds no jump in the fixes the generator produces. *)
Lemma generated_no_jump numEpochs rnd n :
  unitStream rnd -> detectJumps (fst (generatedFixes numEpochs rnd n)) = [].
Proof.
  intros U. unfold generatedFixes.
  pose proof (generated_tracked numEpochs 0 rnd n U) as T.
  destruct (fst (mapM genPosition (seq 0 numEpochs) rnd n)) as [|p rest];
    [reflexivity|].
  simpl. destruct T as [Hp Hr]. now apply (tracked_no_jump 0).
Qed.

Lemma generated_withJumps numEpochs rnd n :
  unitStream rnd ->
  withJumps (fst (generatedFixes numEpochs rnd n)) =
  (artificialJumps, displace (fst (generatedFixes numEpochs rnd n))).
Proof.
  intros U. unfold withJumps. now rewrite generated_no_jump.
Qed.

Local Close Scope R_scope.

(** ** The generator after the scan *)

Lemma generate_unit obs eph rnd n :
  unitStream rnd ->
  generateRealisticResults obs eph rnd n =
  assess (Nat.max 50 (List.length obs)) (satelliteList obs) artificialJumps
    (displace (fst (generatedFixes (Nat.max 50 (List.length obs)) rnd n)))
    rnd (snd (generatedFixes (Nat.max 50 (List.length obs)) rnd n)).
Proof.
  intros U. unfold generateRealisticResults, bind.
  cbv zeta. now rewrite generated_withJumps.
Qed.

Lemma half_unit : unitStream (fun _ => 0.5%Q).
Proof. intros k. split; [discriminate | reflexivity]. Qed.

Lemma quarter_unit : unitStream (fun _ => 0.25%Q).
Proof. intros k. split; [discriminate | reflexivity]. Qed.

Lemma shiftAt_length k dx dy dz l :
  List.length (shiftAt k dx dy dz l) = List.length l.
Proof.
  revert k; induction l as [|p l IH]; intros [|k]; simpl; auto.
Qed.

Lemma displace_length l : List.length (displace l) = List.length l.
Proof. unfold displace. now rewrite !shiftAt_length. Qed.

Lemma generatedFixes_length numEpochs rnd n :
  List.length (fst (generatedFixes numEpochs rnd n)) = numEpochs.
Proof. unfold generatedFixes. now rewrite mapM_length, length_seq. Qed.

Lemma clamp_bounds p : (5 <= clamp p /\ clamp p <= 95)%Q.
Proof.
  unfold clamp. split.
  - apply Q.min_glb; [discriminate | apply Q.le_max_l].
  - apply Q.le_min_l.
Qed.

Lemma clamp_ge p b : (b <= 95)%Q -> (b <= p)%Q -> (b <= clamp p)%Q.
Proof.
  intros Hb Hp. unfold clamp. apply Q.min_glb; [assumption|].
  eapply Qle_trans; [exact Hp | apply Q.le_max_r].
Qed.

Lemma round_clamp_bounds p : (5 <= round (clamp p) <= 95)%Z.
Proof.
  destruct (clamp_bounds p) as [L H]. unfold round. split.
  - assert (F : (Qfloor 5 <= Qfloor (clamp p + 0.5))%Z)
      by (apply Qfloor_resp_le; lra).
    exact F.
  - assert (F : (Qfloor (clamp p + 0.5) <= Qfloor 95.5)%Z)
      by (apply Qfloor_resp_le; lra).
    exact F.
Qed.



(** A version-3 observation file with one epoch of twelve satellites, G11
    to G22. *)
Definition obsTwelve : string :=
  ("     3.04           OBSERVATION DATA    G                   RINEX VERSION / TYPE" ++ LF ++
   "G    1 C1C                                                  SYS / # / OBS TYPES" ++ LF ++
   "                                                            END OF HEADER" ++ LF ++
   "> 2024 01 01 00 00  0.0000000  0 12" ++ LF ++
   "G11  20000011.000" ++ LF ++ "G12  20000012.000" ++ LF ++
   "G13  20000013.000" ++ LF ++ "G14  20000014.000" ++ LF ++
   "G15  20000015.000" ++ LF ++ "G16  20000016.000" ++ LF ++
   "G17  20000017.000" ++ LF ++ "G18  20000018.000" ++ LF ++
   "G19  20000019.000" ++ LF ++ "G20  20000020.000" ++ LF ++
   "G21  20000021.000" ++ LF ++ "G22  20000022.000" ++ LF)%string.

Lemma pipeline_unit obsContent navContent rnd n :
  unitStream rnd ->
  let parsed := parseRinexObservation obsContent rnd n in
  let numEpochs := Nat.max 50 (List.length (fst parsed)) in
  pipeline obsContent navContent rnd n =
  assess numEpochs (satelliteList (fst parsed)) artificialJumps
    (displace (fst (generatedFixes numEpochs rnd (snd parsed))))
    rnd (snd (generatedFixes numEpochs rnd (snd parsed))).
Proof.
  intros U parsed numEpochs. unfold pipeline, bind. cbv zeta.
  now rewrite generate_unit.
Qed.


(** ** What the jump scan flags *)

Lemma jumpsFrom_In (d : Position) rest : forall k prev i,
  In i (jumpsFrom k prev rest) <->
  exists j, (j < List.length rest)%nat /\ i = (k + j)%nat /\
            (100 < distance (nth j (prev :: rest) d) (nth j rest d))%R.
Proof.
  induction rest as [|curr rest IH]; intros k prev i.
  - simpl. split; [tauto|]. intros (j & H & _). lia.
  - cbn [jumpsFrom]. rewrite in_app_iff, IH. split.
    + intros [H|(j & Hj & Hi & Hd)].
      * destruct (Rlt_dec 100 (distance prev curr)) as [L|L]; [|destruct H].
        destruct H as [<-|[]]. exists 0%nat. simpl. repeat split; [lia|lia|exact L].
      * exists (S j). simpl. repeat split; [lia|lia|exact Hd].
    + intros ([|j] & Hj & Hi & Hd).
      * left. simpl in Hd. destruct (Rlt_dec 100 (distance prev curr)) as [L|L];
          [left; lia | contradiction].
      * right. exists j. simpl in Hj, Hd. repeat split; [lia|lia|exact Hd].
Qed.

Lemma detectJumps_In (d : Position) positions i :
  In i (detectJumps positions) <->
  (1 <= i < List.length positions)%nat /\
  (100 < distance (nth (i - 1) positions d) (nth i positions d))%R.
Proof.
  destruct positions as [|first rest]; simpl.
  - split; [tauto | intros [H _]; lia].
  - rewrite (jumpsFrom_In d). split.
    + intros (j & Hj & -> & Hd). split; [lia|].
      replace (1 + j - 1)%nat with j by lia. exact Hd.
    + intros (Hi & Hd). exists (i - 1)%nat. repeat split; [lia|lia|].
      destruct i as [|i]; [lia|].
      replace (S i - 1)%nat with i in * by lia. exact Hd.
Qed.

Lemma positionJumps_generate obs eph rnd n :
  positionJumps (fst (generateRealisticResults obs eph rnd n)) =
  fst (withJumps (fst (generatedFixes (Nat.max 50 (List.length obs)) rnd n))).
Proof. reflexivity. Qed.

Lemma positionData_generate obs eph rnd n :
  positionData (fst (generateRealisticResults obs eph rnd n)) =
  snd (withJumps (fst (generatedFixes (Nat.max 50 (List.length obs)) rnd n))).
Proof. reflexivity. Qed.

(** C4 as the code has it: the scan flags exactly the epochs i >= 1 whose
    fix is more than 100 m from the fix of epoch i - 1, never epoch 0; when
    it flags at least one epoch the returned positionJumps is the list it
    built; when no consecutive distance exceeds 100 m the returned
    positionJumps is not empty but the fixed list 16, 33, 42.  The scanned
    fixes are those of [generatedFixes]. *)
Theorem positionJumps_scan_or_artificial (positions : list Position)
    (d : Position) :
  (forall i,
      In i (detectJumps positions) <->
      (1 <= i < List.length positions)%nat /\
      (100 < distance (nth (i - 1) positions d) (nth i positions d))%R) /\
  ~ In 0%nat (detectJumps positions) /\
  ((exists i, (1 <= i < List.length positions)%nat /\
              (100 < distance (nth (i - 1) positions d) (nth i positions d))%R) ->
   fst (withJumps positions) = detectJumps positions) /\
  ((forall i, (1 <= i < List.length positions)%nat ->
              (distance (nth (i - 1) positions d) (nth i positions d) <= 100)%R) ->
   fst (withJumps positions) = [16; 33; 42]%nat) /\
  (forall obs eph rnd n,
      positionJumps (fst (generateRealisticResults obs eph rnd n)) =
      fst (withJumps (fst (generatedFixes (Nat.max 50 (List.length obs)) rnd n)))).
Proof.
  split; [intro i; apply detectJumps_In|].
  split; [rewrite (detectJumps_In d); intros [H _]; lia|].
  split; [|split; [|intros; apply positionJumps_generate]].
  - intros (i & Hi & Hd). unfold withJumps.
    destruct (detectJumps positions) as [|j l] eqn:E; [|reflexivity].
    exfalso. assert (I : In i (detectJumps positions))
      by (apply (detectJumps_In d); split; assumption).
    rewrite E in I. destruct I.
  - intros H. unfold withJumps.
    destruct (detectJumps positions) as [|j l] eqn:E; [reflexivity|].
    exfalso. assert (I : In j (detectJumps positions)) by (rewrite E; now left).
    apply (detectJumps_In d) in I. destruct I as [Hi Hd].
    specialize (H j Hi). lra.
Qed.

Lemma tracked_distances (d : Position) l : forall a,
  tracked a l ->
  forall i, (1 <= i < List.length l)%nat ->
            (distance (nth (i - 1) l d) (nth i l d) < 100)%R.
Proof.
  induction l as [|p l IH]; intros a T i Hi; simpl in Hi; [lia|].
  destruct T as [Hp Hl].
  destruct i as [|[|i]]; [lia| |].
  - destruct l as [|q l]; simpl in Hi; [lia|]. simpl.
    destruct Hl as [Hq _]. now apply (onTrack_close a).
  - specialize (IH (S a) Hl (S i)). simpl in IH. simpl.
    replace (i - 0)%nat with i in IH by lia. apply IH. lia.
Qed.

(** C4 fails as stated: with no observation and every draw equal to 1/2,
    every fix the scan reads is less than 100 m from the one before, and
    the returned positionJumps is 16, 33, 42. *)
Lemma positionJumps_not_empty_without_jumps :
  let fixes := fst (generatedFixes 50 (fun _ => 0.5%Q) 0) in
  let results := fst (generateRealisticResults [] [] (fun _ => 0.5%Q) 0) in
  (forall d i, (1 <= i < List.length fixes)%nat ->
               (distance (nth (i - 1) fixes d) (nth i fixes d) < 100)%R) /\
  detectJumps fixes = [] /\
  positionJumps results = [16; 33; 42]%nat /\
  positionJumps results <> [].
Proof.
  cbv zeta.
  assert (J : positionJumps (fst (generateRealisticResults [] []
                (fun _ => 0.5%Q) 0)) = [16; 33; 42]%nat).
  { rewrite positionJumps_generate.
    change (Nat.max 50 (List.length (@nil Observation))) with 50%nat.
    now rewrite (generated_withJumps 50 _ 0 half_unit). }
  split; [|split; [|split]].
  - intros d i Hi. apply (tracked_distances d _ 0%nat); [|exact Hi].
    apply generated_tracked, half_unit.
  - apply generated_no_jump, half_unit.
  - exact J.
  - rewrite J. discriminate.
Qed.

Definition obsBadField : string :=
  ("     3.04           OBSERVATION DATA    G                   RINEX VERSION / TYPE" ++ LF ++
   "G    4 C1C L1C D1C S1C                                      SYS / # / OBS TYPES" ++ LF ++
   "                                                            END OF HEADER" ++ LF ++
   "> 2024 01 01 00 00  0.0000000  0  1" ++ LF ++
   "G01 abc" ++ LF)%string.

(** ** Observables that were not read *)

(** An observable of a record under construction that is absent or falsy:
    the source replaces it. *)
Definition unread (v : option num) : Prop :=
  match v with
  | None => True
  | Some n => truthy n = false
  end.

Lemma observable_eqb_eq a b : observable_eqb a b = true <-> a = b.
Proof. destruct a, b; simpl; split; intros H; congruence. Qed.

Lemma mapValues_unread f types : forall values fs,
  (forall t v, In (t, v) (combine types values) ->
               classify3 t = Some f -> parseFloat v = NaN) ->
  unread (fs f) -> unread (mapValues types values fs f).
Proof.
  induction types as [|t types IH]; intros [|v values] fs H U; simpl; auto.
  apply IH.
  - intros t' v' I. apply H. now right.
  - destruct (classify3 t) as [g|] eqn:C; [|exact U].
    unfold assign. destruct (observable_eqb g f) eqn:E; [|exact U].
    apply observable_eqb_eq in E. subst g.
    rewrite (H t v (or_introl eq_refl) C). reflexivity.
Qed.

Lemma fillDefault_unread f fs rnd n :
  unread (fs f) ->
  fillDefault f fs rnd n = (Fin (defaultValue f (rnd n)), S n).
Proof.
  unfold fillDefault, unread. destruct (fs f) as [v|]; [|reflexivity].
  intros ->. reflexivity.
Qed.

Lemma fillDefault_counter f fs rnd n :
  snd (fillDefault f fs rnd n) = n \/ snd (fillDefault f fs rnd n) = S n.
Proof.
  unfold fillDefault. destruct (fs f) as [v|]; [|now right].
  destruct (truthy v); [now left | now right].
Qed.

(** The random default of each observable is in its range; the pseudorange
    and the SNR defaults are never zero.  The upper end of the pseudorange and
    of the SNR range is included: the draw is below 1, but the sum that the
    code computes in double precision can round up to the end point (at the
    largest draw, 20000000 + r * 5000000 is 25000000 and 35 + r * 15 is 50);
    the products r * 1000 and (r - 0.5) * 2000 stay below 1000. *)
Lemma defaultValue_range f r :
  (0 <= r /\ r < 1)%Q ->
  match f with
  | Pseudorange =>
      (20000000 <= defaultValue f r /\ defaultValue f r <= 25000000)%Q
  | CarrierPhase => (0 <= defaultValue f r /\ defaultValue f r < 1000)%Q
  | Doppler => (-1000 <= defaultValue f r /\ defaultValue f r < 1000)%Q
  | Snr => (35 <= defaultValue f r /\ defaultValue f r <= 50)%Q
  end.
Proof. intros [H0 H1]. destruct f; unfold defaultValue; split; lra. Qed.

(** C5 as the code has it.  On a satellite line of version 3, an
    observable whose tokens are all missing or unparsable is not left at
    zero: it is set to the random default of that observable, from a draw
    made while the line is read, and that default is in its range
    (pseudorange in [2e7, 2.5e7], carrier phase in [0, 1000), Doppler in
    [-1000, 1000), SNR in [35, 50]; the two closed ends are values that the
    double-precision sum reaches at the largest draws); the
    record is appended to the epoch and the other variables of the parser are
    unchanged.  A satellite named on a version-2 epoch line gets the random
    default in all four observables. *)
Theorem unread_observable_gets_random_default
    (types : list string) (line : string) (f : Observable)
    (rnd : nat -> Q) (n : nat) :
  unitStream rnd ->
  (forall t v, In (t, v) (combine types (splitWs (trim (drop 3 line)))) ->
               classify3 t = Some f -> parseFloat v = NaN) ->
  let record := fst (satLine3 types line rnd n) in
  (exists k,
      (n <= k < snd (satLine3 types line rnd n))%nat /\
      observable f record = Fin (defaultValue f (rnd k)) /\
      match f with
      | Pseudorange =>
          (20000000 <= defaultValue f (rnd k) /\
           defaultValue f (rnd k) <= 25000000)%Q
      | CarrierPhase =>
          (0 <= defaultValue f (rnd k) /\ defaultValue f (rnd k) < 1000)%Q
      | Doppler =>
          (-1000 <= defaultValue f (rnd k) /\ defaultValue f (rnd k) < 1000)%Q
      | Snr => (35 <= defaultValue f (rnd k) /\ defaultValue f (rnd k) <= 50)%Q
      end) /\
  satellite record = substring 0 3 line /\
  (forall st,
      startsWith ">" line = false ->
      (3 <? String.length line) && matches satelliteRe (trim line) = true ->
      observationTypes st = types ->
      fst (obsBodyLine3 st line rnd n) =
      mkObsState (headerComplete st) (currentEpoch st)
        (epochData st ++ [record])
        (observationTypes st) (rinexVersion st) (observations st)) /\
  (forall token g,
      observable g (fst (listedSat2 token rnd n))
      = Fin (defaultValue g (rnd (n + match g with
                                      | Pseudorange => 0
                                      | CarrierPhase => 1
                                      | Doppler => 2
                                      | Snr => 3
                                      end)%nat))).
Proof.
  intros U H record.
  pose proof (mapValues_unread f types _ noFields H I) as M.
  set (fs := mapValues types (splitWs (trim (drop 3 line))) noFields) in *.
  split; [|split; [reflexivity|split]].
  - unfold record, satLine3. fold fs. unfold bind. cbv zeta.
    set (n1 := snd (fillDefault Pseudorange fs rnd n)).
    set (n2 := snd (fillDefault CarrierPhase fs rnd n1)).
    set (n3 := snd (fillDefault Doppler fs rnd n2)).
    set (n4 := snd (fillDefault Snr fs rnd n3)).
    pose proof (fillDefault_counter Pseudorange fs rnd n) as C1. fold n1 in C1.
    pose proof (fillDefault_counter CarrierPhase fs rnd n1) as C2. fold n2 in C2.
    pose proof (fillDefault_counter Doppler fs rnd n2) as C3. fold n3 in C3.
    pose proof (fillDefault_counter Snr fs rnd n3) as C4. fold n4 in C4.
    destruct f; simpl.
    + exists n. pose proof (fillDefault_unread Pseudorange fs rnd n M) as E.
      assert (n1 = S n) by (unfold n1; now rewrite E).
      rewrite E. simpl.
      split; [lia|split; [reflexivity|apply (defaultValue_range Pseudorange), U]].
    + exists n1. pose proof (fillDefault_unread CarrierPhase fs rnd n1 M) as E.
      assert (n2 = S n1) by (unfold n2; now rewrite E).
      rewrite E. simpl.
      split; [lia|split; [reflexivity|apply (defaultValue_range CarrierPhase), U]].
    + exists n2. pose proof (fillDefault_unread Doppler fs rnd n2 M) as E.
      assert (n3 = S n2) by (unfold n3; now rewrite E).
      rewrite E. simpl.
      split; [lia|split; [reflexivity|apply (defaultValue_range Doppler), U]].
    + exists n3. pose proof (fillDefault_unread Snr fs rnd n3 M) as E.
      assert (n4 = S n3) by (unfold n4; now rewrite E).
      rewrite E. simpl.
      split; [lia|split; [reflexivity|apply (defaultValue_range Snr), U]].
  - intros st G L T. unfold obsBodyLine3. rewrite G, L, T. reflexivity.
  - intros token g. destruct g; unfold listedSat2, bind, random, ret; simpl;
      rewrite ?Nat.add_0_r; repeat f_equal; lia.
Qed.

Lemma unread_observable_gets_random_default_witness :
  let record := fst (satLine3 ["C1C"; "L1C"] "G01 abc" (fun _ => 0.25%Q) 0) in
  exists k, observable Pseudorange record
            = Fin (defaultValue Pseudorange ((fun _ : nat => 0.25%Q) k)).
Proof.
  assert (H : forall t v,
             In (t, v) (combine ["C1C"; "L1C"] (splitWs (trim (drop 3 "G01 abc")))) ->
             classify3 t = Some Pseudorange -> parseFloat v = NaN).
  { intros t v [E|[]] _. injection E as <- <-. reflexivity. }
  destruct (unread_observable_gets_random_default
              ["C1C"; "L1C"] "G01 abc" Pseudorange (fun _ => 0.25%Q) 0
              quarter_unit H) as [(k & _ & E & _) _].
  exists k. exact E.
Defined.

(** C5 fails as stated: in [obsBadField] the pseudorange token of G01 does
    not parse and the other three tokens are missing; the record is kept, but
    with every draw equal to 1/4 its observables are 21250000, 250, -500 and
    38.75, none of them zero.  The file of the end-to-end example of the
    specification (version 2.11, type C1, pseudorange 20123456.789) gets
    250, -500 and 38.75 in the three observables it does not carry. *)
Lemma unread_observable_is_not_zero :
  map satellites (fst (parseRinexObservation obsBadField (fun _ => 0.25%Q) 0))
  = [[mkSatObs "G01" (Fin 21250000.00) (Fin 250.00) (Fin (-500.000)) (Fin 38.75)]] /\
  map satellites (fst (parseRinexObservation (obsFile2 "24") (fun _ => 0.25%Q) 0))
  = [[mkSatObs "G01" (Fin 20123456.789) (Fin 250.00) (Fin (-500.000)) (Fin 38.75)]] /\
  (forall f, In f [Pseudorange; CarrierPhase; Doppler; Snr] ->
             truthy (observable f (mkSatObs "G01" (Fin 21250000.00) (Fin 250.00)
                                     (Fin (-500.000)) (Fin 38.75))) = true).
Proof.
  split; [vm_compute; reflexivity|].
  split; [vm_compute; reflexivity|].
  intros f [<-|[<-|[<-|[<-|[]]]]]; reflexivity.
Qed.

(** ** Results that do not come from the input *)

Lemma mapM_genHealth_sv sats rnd : forall n,
  map sv (fst (mapM genHealth sats rnd n)) = sats.
Proof.
  induction sats as [|s sats IH]; intros n; [reflexivity|].
  rewrite mapM_cons. cbn [fst map]. f_equal. apply IH.
Qed.

Lemma unique_from_In (l : list nat) : forall seen v,
  In v seen \/ In v l ->
  In v (fold_left (fun seen v => if existsb (Nat.eqb v) seen then seen
                                 else seen ++ [v]) l seen).
Proof.
  induction l as [|a l IH]; intros seen v H; simpl.
  - destruct H as [H|[]]. exact H.
  - apply IH. destruct H as [H|[<-|H]]; [| |now right].
    + left. destruct (existsb (Nat.eqb a) seen); [exact H|].
      apply in_or_app. now left.
    + left. destruct (existsb (Nat.eqb a) seen) eqn:E.
      * apply existsb_exists in E. destruct E as (w & Hw & E).
        apply Nat.eqb_eq in E. now subst w.
      * apply in_or_app. right. now left.
Qed.

Lemma unique_In l v : In v l -> In v (unique l).
Proof. intros H. apply unique_from_In. now right. Qed.

(** The three artificial jumps are always among the flagged epochs. *)
Lemma flagged_at_least_three pdops :
  3 <= List.length (unique (pdops ++ artificialJumps)).
Proof.
  change 3 with (List.length artificialJumps).
  apply NoDup_incl_length.
  - unfold artificialJumps. repeat constructor; simpl; intuition discriminate.
  - intros v H. apply unique_In, in_or_app. now right.
Qed.

Lemma baseScore_ge (flagged unhealthy k : nat) (r : Q) :
  3 <= flagged -> k <= unhealthy -> (0 <= r)%Q ->
  (75 + 15 * inject_Z (Z.of_nat k) <= baseScore flagged 3 unhealthy + r * 10)%Q.
Proof.
  intros F K R. unfold baseScore.
  assert (F' : (3 <= inject_Z (Z.of_nat flagged))%Q)
    by (change 3%Q with (inject_Z 3); rewrite <- Zle_Qle; lia).
  assert (K' : (inject_Z (Z.of_nat k) <= inject_Z (Z.of_nat unhealthy))%Q)
    by (rewrite <- Zle_Qle; lia).
  change (inject_Z (Z.of_nat 3)) with 3%Q. lra.
Qed.

Lemma threatLevelOf_critical p : (75 <= p)%Q -> threatLevelOf p = CRITICAL.
Proof.
  intros H. unfold threatLevelOf.
  assert (E : forall b, (b <= 75)%Q -> Qltb p b = false)
    by (intros b Hb; apply Qltb_ge; lra).
  rewrite !E by discriminate. reflexivity.
Qed.

Lemma round_clamp_top p : (95 <= p)%Q -> round (clamp p) = 95%Z.
Proof.
  intros H. unfold round, clamp.
  assert (E : (Qmin 95 (Qmax 5 p) == 95)%Q).
  { apply Q.min_l. eapply Qle_trans; [exact H | apply Q.le_max_r]. }
  rewrite E. reflexivity.
Qed.

(** With a stream in [0, 1) the level is CRITICAL on every input: the
    three artificial jumps alone score 75. *)
Lemma threatLevel_unit obs eph rnd n :
  unitStream rnd ->
  threatLevel (fst (generateRealisticResults obs eph rnd n)) = CRITICAL.
Proof.
  intros U. rewrite generate_unit by exact U.
  unfold assess, bind, random, ret. cbv zeta. cbn [fst snd threatLevel].
  apply threatLevelOf_critical, clamp_ge; [discriminate|].
  eapply Qle_trans; [|apply (baseScore_ge _ _ 0)];
    [discriminate | apply flagged_at_least_three | lia | apply U].
Qed.

Lemma G02_G04_unhealthy satId rnd n :
  unitStream rnd -> satId = "G02" \/ satId = "G04" ->
  isUnhealthy (fst (genHealth satId rnd n)) = true.
Proof.
  intros U H. unfold genHealth, bind, random, ret. cbv zeta. cbn [fst snd].
  unfold isUnhealthy. cbn [health]. apply Qltb_lt.
  destruct (U n) as [H0 H1].
  replace (String.eqb satId "G02" || String.eqb satId "G04") with true
    by (destruct H as [-> | ->]; reflexivity).
  apply Q.max_lub_lt; [reflexivity | lra].
Qed.

Lemma unhealthy_common rnd n :
  unitStream rnd ->
  2 <= List.length (filter isUnhealthy (fst (mapM genHealth commonSats rnd n))).
Proof.
  intros U. unfold commonSats.
  rewrite !mapM_cons. cbn [fst filter].
  set (n1 := snd (genHealth "G01" rnd n)).
  set (n2 := snd (genHealth "G02" rnd n1)).
  set (n3 := snd (genHealth "G03" rnd n2)).
  rewrite (G02_G04_unhealthy "G02" rnd n1 U (or_introl eq_refl)).
  rewrite (G02_G04_unhealthy "G04" rnd n3 U (or_intror eq_refl)).
  destruct (isUnhealthy (fst (genHealth "G01" rnd n)));
    destruct (isUnhealthy (fst (genHealth "G03" rnd n2)));
    cbn [List.length]; lia.
Qed.

Lemma assess_lengths numEpochs sats jumps positions rnd n :
  let results := fst (assess numEpochs sats jumps positions rnd n) in
  positionJumps results = jumps /\
  positionData results = positions /\
  List.length (pdopValues results) = List.length positions /\
  List.length (signalData results) = List.length positions /\
  map sv (satelliteHealth results) = sats /\
  totalEpochs (processingInfo results) = numEpochs /\
  totalSatellites (processingInfo results) = List.length sats.
Proof.
  cbv zeta. unfold assess, bind, random, ret. cbv zeta.
  cbn [fst snd positionJumps positionData pdopValues signalData satelliteHealth
       processingInfo totalEpochs totalSatellites].
  repeat split.
  - apply length_map.
  - now rewrite mapM_length, length_seq.
  - apply mapM_genHealth_sv.
Qed.

(** C8 as the code has it: when parsing yields no epoch the result is not
    an insufficiency report.  It carries 50 epochs of generated positions,
    PDOP values and signal data, the ten satellites G01 to G10, the jumps 16,
    33 and 42, and it reports the level CRITICAL with probability 95. *)
Theorem empty_input_gets_synthetic_results
    (eph : list Ephemeris) (rnd : nat -> Q) (n : nat) :
  unitStream rnd ->
  let results := fst (generateRealisticResults [] eph rnd n) in
  totalEpochs (processingInfo results) = 50 /\
  List.length (positionData results) = 50 /\
  List.length (pdopValues results) = 50 /\
  List.length (signalData results) = 50 /\
  map sv (satelliteHealth results) = commonSats /\
  totalSatellites (processingInfo results) = 10 /\
  positionJumps results = [16; 33; 42] /\
  threatLevel results = CRITICAL /\
  spoofingProbability results = 95%Z.
Proof.
  intros U results.
  assert (T : threatLevel results = CRITICAL) by (apply threatLevel_unit, U).
  unfold results in *. rewrite generate_unit in * by exact U.
  change (Nat.max 50 (List.length (@nil Observation))) with 50 in *.
  change (satelliteList []) with commonSats in *.
  set (fixes := fst (generatedFixes 50 rnd n)) in *.
  set (n1 := snd (generatedFixes 50 rnd n)) in *.
  destruct (assess_lengths 50 commonSats artificialJumps (displace fixes) rnd n1)
    as (J & P & LP & LS & SV & TE & TS).
  assert (L : List.length (displace fixes) = 50)
    by (unfold fixes; now rewrite displace_length, generatedFixes_length).
  repeat match goal with |- _ /\ _ => split end.
  - exact TE.
  - now rewrite P.
  - now rewrite LP.
  - now rewrite LS.
  - exact SV.
  - exact TS.
  - exact J.
  - exact T.
  - unfold assess, bind, random, ret. cbv zeta. cbn [fst snd spoofingProbability].
    apply round_clamp_top.
    eapply Qle_trans; [|apply (baseScore_ge _ _ 2)];
      [discriminate | apply flagged_at_least_three
       | apply unhealthy_common, U | apply U].
Qed.

Lemma empty_input_gets_synthetic_results_witness :
  let results := fst (generateRealisticResults [] [] (fun _ => 0.5%Q) 0) in
  List.length (positionData results) = 50 /\ spoofingProbability results = 95%Z.
Proof.
  pose proof (empty_input_gets_synthetic_results [] (fun _ => 0.5%Q) 0 half_unit)
    as H.
  split; apply H.
Defined.

(** C8 fails as stated: two files of 100 blanks parse to no epoch and no
    ephemeris, and the answer is status 200 with 50 epochs, 50 positions, 50
    PDOP values, ten satellites and three jumps, none of them read from the
    files, under the level CRITICAL. *)
Lemma blank_files_get_full_results :
  let request := inr (mkFormData (Some (mkFile "a.24o" blank100))
                                 (Some (mkFile "a.24n" blank100))) in
  let half := fun _ : nat => 0.5%Q in
  fst (parseRinexObservation blank100 half 0) = [] /\
  parseRinexNavigation blank100 = [] /\
  exists results,
    fst (POST request half 0) = mkResponse 200 (ResultBody results) /\
    totalEpochs (processingInfo results) = 50 /\
    List.length (positionData results) = 50 /\
    List.length (pdopValues results) = 50 /\
    map sv (satelliteHealth results) = commonSats /\
    positionJumps results = [16; 33; 42] /\
    threatLevel results = CRITICAL /\
    spoofingProbability results = 95%Z.
Proof.
  cbv zeta.
  assert (P : fst (parseRinexObservation blank100 (fun _ => 0.5%Q) 0) = [])
    by (vm_compute; reflexivity).
  assert (N : parseRinexNavigation blank100 = []) by (vm_compute; reflexivity).
  split; [exact P|]. split; [exact N|].
  exists (fst (generateRealisticResults [] [] (fun _ => 0.5%Q) 0)).
  split.
  - erewrite POST_accepted; [|reflexivity|reflexivity|vm_compute; lia|vm_compute; lia].
    cbn [fst text]. unfold pipeline, bind. cbv zeta. rewrite P, N.
    assert (C : snd (parseRinexObservation blank100 (fun _ => 0.5%Q) 0) = 0)
      by (vm_compute; reflexivity).
    rewrite C. reflexivity.
  - pose proof (empty_input_gets_synthetic_results [] (fun _ => 0.5%Q) 0 half_unit)
      as H.
    cbv zeta in H. intuition.
Qed.

(** ** What the observation parser returns whatever the draws *)

(** The epochs and the satellite ids of a parse, without the observables. *)
Definition shape (obs : list Observation) : list (Epoch * list string) :=
  map (fun o => (epoch o, map satellite (satellites o))) obs.

(** Two parser states that differ at most in the observables. *)
Definition sameState (s1 s2 : ObsState) : Prop :=
  headerComplete s1 = headerComplete s2 /\
  currentEpoch s1 = currentEpoch s2 /\
  map satellite (epochData s1) = map satellite (epochData s2) /\
  observationTypes s1 = observationTypes s2 /\
  rinexVersion s1 = rinexVersion s2 /\
  shape (observations s1) = shape (observations s2).

Lemma flushEpoch_same s1 s2 :
  sameState s1 s2 -> shape (flushEpoch s1) = shape (flushEpoch s2).
Proof.
  intros (_ & He & Hd & _ & _ & Ho). unfold flushEpoch. rewrite He.
  destruct (currentEpoch s2) as [e|]; [|exact Ho].
  destruct (epochData s1) as [|a l1], (epochData s2) as [|b l2];
    try discriminate Hd; [exact Ho|].
  unfold shape in *. rewrite !map_app, Ho. f_equal.
  change ([(e, map satellite (a :: l1))] = [(e, map satellite (b :: l2))]).
  now rewrite Hd.
Qed.

Lemma obsHeaderLine_same s1 s2 line :
  sameState s1 s2 -> sameState (obsHeaderLine s1 line) (obsHeaderLine s2 line).
Proof.
  intros (_ & He & Hd & Ht & Hv & Ho). unfold obsHeaderLine, sameState.
  cbn [headerComplete currentEpoch epochData observationTypes rinexVersion
       observations].
  rewrite Ht, Hv. repeat match goal with |- _ /\ _ => split end; auto.
Qed.

Lemma obsBodyLine3_same s1 s2 line r1 n1 r2 n2 :
  sameState s1 s2 ->
  sameState (fst (obsBodyLine3 s1 line r1 n1)) (fst (obsBodyLine3 s2 line r2 n2)).
Proof.
  intros H. pose proof (flushEpoch_same _ _ H) as F.
  destruct H as (Hh & He & Hd & Ht & Hv & Ho). unfold obsBodyLine3.
  destruct (startsWith ">" line).
  { unfold sameState, ret. cbn. repeat match goal with |- _ /\ _ => split end; auto. }
  destruct ((3 <? String.length line) && matches satelliteRe (trim line)).
  - unfold sameState, bind, ret. cbv zeta.
    cbn [fst headerComplete currentEpoch epochData observationTypes rinexVersion
         observations].
    repeat match goal with |- _ /\ _ => split end; auto.
    rewrite !map_app, Hd. reflexivity.
  - unfold ret. cbn [fst]. unfold sameState.
    repeat match goal with |- _ /\ _ => split end; auto.
Qed.

Lemma listedSats2_ids l rnd : forall acc n,
  map satellite
    (fst (foldM (fun acc token =>
                   if 3 <=? String.length token then
                     o <- listedSat2 token;; ret (acc ++ [o])
                   else ret acc) l acc rnd n))
  = map satellite acc
    ++ map (substring 0 3) (filter (fun t => 3 <=? String.length t) l).
Proof.
  induction l as [|t l IH]; intros acc n.
  - cbn. now rewrite app_nil_r.
  - cbn [foldM filter]. unfold bind at 1. cbv zeta.
    destruct (3 <=? String.length t).
    + rewrite IH. unfold bind at 1. cbv zeta. cbn [ret fst].
      rewrite map_app, <- app_assoc. reflexivity.
    + rewrite IH. reflexivity.
Qed.

Lemma storeValue2_satellite k f p nm vs ts sat :
  satellite (storeValue2 k f p nm vs ts sat) = satellite sat.
Proof.
  unfold storeValue2.
  destruct (nth_error vs k); [|reflexivity].
  destruct (nth_error ts k); [|reflexivity].
  destruct (_ && _); [|reflexivity]. destruct f; reflexivity.
Qed.

Lemma updateLast_ids f l :
  (forall o, satellite (f o) = satellite o) ->
  map satellite (updateLast f l) = map satellite l.
Proof.
  intros H. unfold updateLast.
  destruct (rev l) as [|last front] eqn:E.
  - apply (f_equal (@rev _)) in E. rewrite rev_involutive in E. now subst l.
  - apply (f_equal (@rev _)) in E. rewrite rev_involutive in E. subst l.
    cbn [rev]. rewrite !map_app. cbn [map]. now rewrite H.
Qed.

Lemma obsBodyLine2_same s1 s2 line r1 n1 r2 n2 :
  sameState s1 s2 ->
  sameState (fst (obsBodyLine2 s1 line r1 n1)) (fst (obsBodyLine2 s2 line r2 n2)).
Proof.
  intros H. pose proof (flushEpoch_same _ _ H) as F.
  destruct H as (Hh & He & Hd & Ht & Hv & Ho). unfold obsBodyLine2.
  destruct (matches epochRe2 line).
  - unfold sameState, bind, ret. cbv zeta.
    cbn [fst headerComplete currentEpoch epochData observationTypes rinexVersion
         observations].
    repeat match goal with |- _ /\ _ => split end; auto.
    destruct (8 <? List.length (splitWs (trim line))); [|reflexivity].
    unfold listedSats2. rewrite !listedSats2_ids. reflexivity.
  - assert (H0 : sameState s1 s2) by (unfold sameState; auto 10).
    rewrite He. destruct (currentEpoch s2) as [e|] eqn:E2; [|exact H0].
    destruct ((10 <? String.length line) && matches dataRe2 line); [|exact H0].
    destruct (obsValues2 line) as [|v vs]; [exact H0|].
    unfold ret. cbn [fst]. unfold sameState.
    cbn [headerComplete currentEpoch epochData observationTypes rinexVersion
         observations].
    rewrite Ht.
    repeat match goal with |- _ /\ _ => split end; auto.
    rewrite !updateLast_ids; [exact Hd| |];
      intros o; unfold storeValues2; now rewrite !storeValue2_satellite.
Qed.

Lemma obsLine_same s1 s2 line r1 n1 r2 n2 :
  sameState s1 s2 ->
  sameState (fst (obsLine s1 line r1 n1)) (fst (obsLine s2 line r2 n2)).
Proof.
  intros H. unfold obsLine.
  destruct (isEmpty (trim line)); [exact H|].
  destruct H as (Hh & He & Hd & Ht & Hv & Ho).
  rewrite Hh, Hv.
  assert (H : sameState s1 s2) by (unfold sameState; auto 10).
  destruct (negb (headerComplete s2)); [now apply obsHeaderLine_same|].
  destruct (geq (rinexVersion s2) 3);
    [now apply obsBodyLine3_same | now apply obsBodyLine2_same].
Qed.

Lemma foldM_obsLine_same lines : forall s1 s2 r1 n1 r2 n2,
  sameState s1 s2 ->
  sameState (fst (foldM obsLine lines s1 r1 n1))
            (fst (foldM obsLine lines s2 r2 n2)).
Proof.
  induction lines as [|line lines IH]; intros s1 s2 r1 n1 r2 n2 H.
  - exact H.
  - cbn [foldM]. unfold bind. cbv zeta. apply IH. now apply obsLine_same.
Qed.

(** The epochs and satellite ids the observation parser returns do not
    depend on the random source. *)
Lemma parseRinexObservation_shape content r1 n1 r2 n2 :
  shape (fst (parseRinexObservation content r1 n1))
  = shape (fst (parseRinexObservation content r2 n2)).
Proof.
  unfold parseRinexObservation, bind, ret. cbv zeta. cbn [fst].
  apply flushEpoch_same, foldM_obsLine_same.
  unfold sameState. auto 10.
Qed.

Lemma satelliteList_shape o1 o2 :
  shape o1 = shape o2 -> satelliteList o1 = satelliteList o2.
Proof.
  intros H. unfold satelliteList. do 2 f_equal.
  assert (G : forall obs ids,
             fold_left (fun ids o =>
                          fold_left (fun ids sat => setAdd ids (satellite sat))
                                    (satellites o) ids) obs ids
             = fold_left (fun ids p => fold_left setAdd (snd p) ids)
                         (shape obs) ids).
  { induction obs as [|o obs IH]; intros ids; [reflexivity|].
    cbn [fold_left shape map snd]. rewrite IH. f_equal.
    clear. generalize ids. induction (satellites o) as [|s l IH]; intros ids';
      [reflexivity|]. cbn [fold_left map]. apply IH. }
  now rewrite !G, H.
Qed.

Lemma shape_length obs : List.length (shape obs) = List.length obs.
Proof. apply length_map. Qed.

(** ** The result as a function of the inputs and of the draws *)

(** The two streams return the same values from the two counters on. *)
Definition sameDraws (r1 : nat -> Q) (n1 : nat) (r2 : nat -> Q) (n2 : nat)
    : Prop :=
  forall k, r1 (n1 + k) = r2 (n2 + k).

(** A computation whose value depends on the stream only through the draws
    it makes, and which makes as many draws on equal draws. *)
Definition stable {A : Type} (m : Rand A) : Prop :=
  forall r1 n1 r2 n2,
    sameDraws r1 n1 r2 n2 ->
    fst (m r1 n1) = fst (m r2 n2) /\
    exists d, snd (m r1 n1) = n1 + d /\ snd (m r2 n2) = n2 + d.

Lemma stable_ret {A : Type} (a : A) : stable (ret a).
Proof.
  intros r1 n1 r2 n2 _. split; [reflexivity|]. exists 0. cbn. lia.
Qed.

Lemma stable_random : stable random.
Proof.
  intros r1 n1 r2 n2 H. split.
  - cbn. specialize (H 0). now rewrite !Nat.add_0_r in H.
  - exists 1. cbn. lia.
Qed.

Lemma stable_bind {A B : Type} (m : Rand A) (k : A -> Rand B) :
  stable m -> (forall a, stable (k a)) -> stable (bind m k).
Proof.
  intros Hm Hk r1 n1 r2 n2 H. unfold bind. cbv zeta.
  destruct (Hm r1 n1 r2 n2 H) as (E & d & D1 & D2).
  rewrite E, D1, D2.
  destruct (Hk (fst (m r2 n2)) r1 (n1 + d) r2 (n2 + d)) as (E' & d' & D1' & D2').
  { intros j. rewrite <- !Nat.add_assoc. apply H. }
  split; [exact E'|]. exists (d + d'). lia.
Qed.

Lemma stable_foldM {A S : Type} (body : S -> A -> Rand S) (l : list A) :
  (forall st a, stable (body st a)) -> forall st, stable (foldM body l st).
Proof.
  intros H. induction l as [|a l IH]; intros st; cbn [foldM].
  - apply stable_ret.
  - apply stable_bind; [apply H | exact IH].
Qed.

Lemma stable_mapM {A B : Type} (f : A -> Rand B) (l : list A) :
  (forall a, stable (f a)) -> stable (mapM f l).
Proof.
  intros H. induction l as [|a l IH]; cbn [mapM].
  - apply stable_ret.
  - apply stable_bind; [apply H|]. intros b.
    apply stable_bind; [exact IH|]. intros bs. apply stable_ret.
Qed.

Create HintDb stable.
#[local] Hint Resolve stable_ret stable_random : stable.

Ltac stable_step :=
  lazymatch goal with
  | |- stable (bind _ _) => apply stable_bind; [|intro]
  | |- stable (foldM _ _ _) => apply stable_foldM; intros
  | |- stable (mapM _ _) => apply stable_mapM; intros
  | |- stable (if ?c then _ else _) => destruct c
  | |- stable (match ?v with _ => _ end) => destruct v
  | |- stable _ => solve [auto with stable]
  end.

Ltac stable_tac := cbv zeta; repeat stable_step.

Lemma stable_fillDefault f fs : stable (fillDefault f fs).
Proof. unfold fillDefault. stable_tac. Qed.
#[local] Hint Resolve stable_fillDefault : stable.

Lemma stable_satLine3 types line : stable (satLine3 types line).
Proof. unfold satLine3. stable_tac. Qed.
#[local] Hint Resolve stable_satLine3 : stable.

Lemma stable_obsBodyLine3 st line : stable (obsBodyLine3 st line).
Proof. unfold obsBodyLine3. stable_tac. Qed.

Lemma stable_listedSat2 token : stable (listedSat2 token).
Proof. unfold listedSat2. stable_tac. Qed.
#[local] Hint Resolve stable_listedSat2 : stable.

Lemma stable_listedSats2 parts k : stable (listedSats2 parts k).
Proof. unfold listedSats2. stable_tac. Qed.
#[local] Hint Resolve stable_listedSats2 : stable.

Lemma stable_obsBodyLine2 st line : stable (obsBodyLine2 st line).
Proof. unfold obsBodyLine2. stable_tac. Qed.

Lemma stable_obsLine st line : stable (obsLine st line).
Proof.
  unfold obsLine. stable_tac;
    [apply stable_obsBodyLine3 | apply stable_obsBodyLine2].
Qed.
#[local] Hint Resolve stable_obsLine : stable.

Lemma stable_parseRinexObservation content : stable (parseRinexObservation content).
Proof. unfold parseRinexObservation. stable_tac. Qed.
#[local] Hint Resolve stable_parseRinexObservation : stable.

Lemma stable_genPosition i : stable (genPosition i).
Proof. unfold genPosition. stable_tac. Qed.
#[local] Hint Resolve stable_genPosition : stable.

Lemma stable_genHealth satId : stable (genHealth satId).
Proof. unfold genHealth. stable_tac. Qed.
#[local] Hint Resolve stable_genHealth : stable.

Lemma stable_genSignal i : stable (genSignal i).
Proof. unfold genSignal. stable_tac. Qed.
#[local] Hint Resolve stable_genSignal : stable.

Lemma stable_assess numEpochs sats jumps positions :
  stable (assess numEpochs sats jumps positions).
Proof. unfold assess. stable_tac. Qed.
#[local] Hint Resolve stable_assess : stable.

Lemma stable_generateRealisticResults obs eph :
  stable (generateRealisticResults obs eph).
Proof. unfold generateRealisticResults, generatedFixes. stable_tac. Qed.
#[local] Hint Resolve stable_generateRealisticResults : stable.

Lemma stable_pipeline obsContent navContent :
  stable (pipeline obsContent navContent).
Proof. unfold pipeline. stable_tac. Qed.

Lemma three_tenths_unit : unitStream (fun _ => 0.3%Q).
Proof. intros k. split; [discriminate | reflexivity]. Qed.

Lemma pipeline_fields obsContent navContent rnd n :
  unitStream rnd ->
  let parsed := fst (parseRinexObservation obsContent rnd n) in
  let numEpochs := Nat.max 50 (List.length parsed) in
  let results := fst (pipeline obsContent navContent rnd n) in
  threatLevel results = CRITICAL /\
  positionJumps results = artificialJumps /\
  processingInfo results =
    mkProcessingInfo numEpochs (List.length (satelliteList parsed))
      (inject_Z (round (inject_Z (Z.of_nat (List.length (satelliteList parsed)))
                        * 0.8 * 10)%Q) / 10)%Q
      (qualityOf (List.length (satelliteList parsed))) /\
  map sv (satelliteHealth results) = satelliteList parsed /\
  List.length (positionData results) = numEpochs /\
  List.length (pdopValues results) = numEpochs /\
  List.length (signalData results) = numEpochs.
Proof.
  intros U parsed numEpochs results.
  assert (T : threatLevel results = CRITICAL) by (apply threatLevel_unit, U).
  unfold results in *. rewrite pipeline_unit in * by exact U. cbv zeta in *.
  fold parsed. fold numEpochs.
  set (n0 := snd (parseRinexObservation obsContent rnd n)) in *.
  set (fixes := fst (generatedFixes numEpochs rnd n0)) in *.
  set (n1 := snd (generatedFixes numEpochs rnd n0)) in *.
  destruct (assess_lengths numEpochs (satelliteList parsed) artificialJumps
              (displace fixes) rnd n1) as (J & P & LP & LS & SV & TE & TS).
  assert (L : List.length (displace fixes) = numEpochs)
    by (unfold fixes; now rewrite displace_length, generatedFixes_length).
  repeat match goal with |- _ /\ _ => split end.
  - exact T.
  - exact J.
  - reflexivity.
  - exact SV.
  - now rewrite P.
  - now rewrite LP.
  - now rewrite LS.
Qed.

(** C1 as the code has it.  The result is a function of the two file
    contents and of the values [Math.random] returns: two runs on the same
    contents whose draws are the same return the same result.  Two runs on
    the same contents with any draws in [0, 1) still agree on threatLevel,
    positionJumps, processingInfo, the satellite ids of satelliteHealth and
    the number of entries of positionData, pdopValues and signalData. *)
Theorem pipeline_deterministic_in_inputs_and_draws
    (obsContent navContent : string)
    (rnd1 rnd2 : nat -> Q) (n1 n2 : nat) :
  unitStream rnd1 -> unitStream rnd2 ->
  let a := fst (pipeline obsContent navContent rnd1 n1) in
  let b := fst (pipeline obsContent navContent rnd2 n2) in
  ((forall k, rnd1 (n1 + k)%nat = rnd2 (n2 + k)%nat) -> a = b) /\
  threatLevel a = threatLevel b /\
  positionJumps a = positionJumps b /\
  processingInfo a = processingInfo b /\
  map sv (satelliteHealth a) = map sv (satelliteHealth b) /\
  List.length (positionData a) = List.length (positionData b) /\
  List.length (pdopValues a) = List.length (pdopValues b) /\
  List.length (signalData a) = List.length (signalData b).
Proof.
  intros U1 U2 a b.
  split; [intros H; apply (stable_pipeline obsContent navContent rnd1 n1 rnd2 n2 H)|].
  destruct (pipeline_fields obsContent navContent rnd1 n1 U1)
    as (T1 & J1 & I1 & S1 & P1 & D1 & G1).
  destruct (pipeline_fields obsContent navContent rnd2 n2 U2)
    as (T2 & J2 & I2 & S2 & P2 & D2 & G2).
  fold a in T1, J1, I1, S1, P1, D1, G1. fold b in T2, J2, I2, S2, P2, D2, G2.
  pose proof (parseRinexObservation_shape obsContent rnd1 n1 rnd2 n2) as Sh.
  pose proof (satelliteList_shape _ _ Sh) as Sl.
  assert (Ln : List.length (fst (parseRinexObservation obsContent rnd1 n1))
               = List.length (fst (parseRinexObservation obsContent rnd2 n2)))
    by (rewrite <- !shape_length; now rewrite Sh).
  rewrite T1, T2, J1, J2, I1, I2, S1, S2, P1, P2, D1, D2, G1, G2, Sl, Ln.
  repeat match goal with |- _ /\ _ => split end; reflexivity.
Qed.

Lemma pipeline_deterministic_in_inputs_and_draws_witness :
  let a := fst (pipeline obsTwelve (navFile2 "85") (fun _ => 0.3%Q) 0) in
  let b := fst (pipeline obsTwelve (navFile2 "85") (fun _ => 0.5%Q) 0) in
  threatLevel a = threatLevel b /\ processingInfo a = processingInfo b.
Proof.
  pose proof (pipeline_deterministic_in_inputs_and_draws
                obsTwelve (navFile2 "85") (fun _ => 0.3%Q) (fun _ => 0.5%Q) 0 0
                three_tenths_unit half_unit) as H.
  split; apply H.
Defined.

(** C1 fails as stated: the same two files, [obsTwelve] and a version-2
    navigation file, are answered with probability 93 when every draw is
    3/10 and with probability 95 when every draw is 1/2. *)
Lemma identical_input_different_results :
  let request := inr (mkFormData (Some (mkFile "a.24o" obsTwelve))
                                 (Some (mkFile "a.24n" (navFile2 "85")))) in
  let a := fst (pipeline obsTwelve (navFile2 "85") (fun _ => 0.3%Q) 0) in
  let b := fst (pipeline obsTwelve (navFile2 "85") (fun _ => 0.5%Q) 0) in
  fst (POST request (fun _ => 0.3%Q) 0) = mkResponse 200 (ResultBody a) /\
  fst (POST request (fun _ => 0.5%Q) 0) = mkResponse 200 (ResultBody b) /\
  spoofingProbability a = 93%Z /\
  spoofingProbability b = 95%Z /\
  a <> b.
Proof.
  cbv zeta.
  assert (A : spoofingProbability
                (fst (pipeline obsTwelve (navFile2 "85") (fun _ => 0.3%Q) 0))
              = 93%Z).
  { rewrite (pipeline_unit _ _ _ _ three_tenths_unit). lazy. reflexivity. }
  assert (B : spoofingProbability
                (fst (pipeline obsTwelve (navFile2 "85") (fun _ => 0.5%Q) 0))
              = 95%Z).
  { rewrite (pipeline_unit _ _ _ _ half_unit). lazy. reflexivity. }
  assert (Lo : 100 <= String.length (text (mkFile "a.24o" obsTwelve)))
    by (apply Nat.leb_le; vm_compute; reflexivity).
  assert (Ln : 100 <= String.length (text (mkFile "a.24n" (navFile2 "85"))))
    by (apply Nat.leb_le; vm_compute; reflexivity).
  repeat match goal with |- _ /\ _ => split end.
  - now rewrite (POST_accepted
                   (mkFormData (Some (mkFile "a.24o" obsTwelve))
                               (Some (mkFile "a.24n" (navFile2 "85"))))
                   (mkFile "a.24o" obsTwelve) (mkFile "a.24n" (navFile2 "85"))
                   (fun _ => 0.3%Q) 0 eq_refl eq_refl Lo Ln).
  - now rewrite (POST_accepted
                   (mkFormData (Some (mkFile "a.24o" obsTwelve))
                               (Some (mkFile "a.24n" (navFile2 "85"))))
                   (mkFile "a.24o" obsTwelve) (mkFile "a.24n" (navFile2 "85"))
                   (fun _ => 0.5%Q) 0 eq_refl eq_refl Lo Ln).
  - exact A.
  - exact B.
  - intros E. rewrite E in A. rewrite A in B. discriminate B.
Qed.

(** * Further properties of the generator *)

Lemma mapM_Forall {A B : Type} (f : A -> Rand B) (P : B -> Prop) rnd
    (l : list A) :
  (forall a n, P (fst (f a rnd n))) -> forall n, Forall P (fst (mapM f l rnd n)).
Proof.
  intros H. induction l as [|a l IH]; intros n.
  - constructor.
  - rewrite mapM_cons. cbn [fst]. constructor; [apply H | apply IH].
Qed.

Lemma mapM_genPosition_epochs l rnd : forall n,
  map pos_epoch (fst (mapM genPosition l rnd n)) = l.
Proof.
  induction l as [|i l IH]; intros n; [reflexivity|].
  rewrite mapM_cons. cbn [fst map]. f_equal. apply IH.
Qed.

(** The displacement touches the coordinates only. *)
Lemma shiftAt_map {B : Type} (g : Position -> B) k dx dy dz l :
  (forall p ddx ddy ddz,
      g (mkPosition (pos_epoch p) (x p + ddx) (y p + ddy) (z p + ddz)
           (pdop p) (accuracy p) (pos_numSats p)) = g p) ->
  map g (shiftAt k dx dy dz l) = map g l.
Proof.
  intros H. revert k. induction l as [|p l IH]; intros [|k]; cbn [shiftAt map];
    try reflexivity.
  - now rewrite H.
  - now rewrite IH.
Qed.

Lemma withJumps_map {B : Type} (g : Position -> B) l :
  (forall p ddx ddy ddz,
      g (mkPosition (pos_epoch p) (x p + ddx) (y p + ddy) (z p + ddz)
           (pdop p) (accuracy p) (pos_numSats p)) = g p) ->
  map g (snd (withJumps l)) = map g l.
Proof.
  intros H. unfold withJumps. destruct (detectJumps l); [|reflexivity].
  cbn [snd]. unfold displace. now rewrite !shiftAt_map.
Qed.

Lemma Forall_of_map {A B : Type} (g : A -> B) (P : B -> Prop) l l' :
  map g l = map g l' -> Forall (fun a => P (g a)) l' -> Forall (fun a => P (g a)) l.
Proof.
  intros E H. apply Forall_map. rewrite E. now apply Forall_map.
Qed.

Lemma genPosition_pdop i rnd n :
  (1 <= pdop (fst (genPosition i rnd n)) /\ pdop (fst (genPosition i rnd n)) <= 15)%Q.
Proof.
  unfold genPosition, bind, random, ret. cbv zeta. cbn [fst snd pdop]. split.
  - apply Q.le_max_l.
  - apply Q.max_lub; [discriminate | apply Q.le_min_l].
Qed.

Lemma genPosition_accuracy i rnd n :
  (1 <= accuracy (fst (genPosition i rnd n)))%Q.
Proof.
  unfold genPosition, bind, random, ret. cbv zeta. cbn [fst snd accuracy].
  apply Q.le_max_l.
Qed.

Lemma genPosition_numSats i rnd n :
  unitStream rnd ->
  (4 <= pos_numSats (fst (genPosition i rnd n)) <= 11)%Z.
Proof.
  intros U. unfold genPosition, bind, random, ret. cbv zeta.
  cbn [fst snd pos_numSats].
  destruct (U n) as [H0 H1].
  assert (L : (Qfloor 0 <= Qfloor (rnd n * 8))%Z)
    by (apply Qfloor_resp_le; lra).
  assert (H : (Qfloor (rnd n * 8) < 8)%Z).
  { rewrite Zlt_Qlt. eapply Qle_lt_trans; [apply Qfloor_le|].
    change (inject_Z 8) with 8%Q. lra. }
  change (Qfloor 0) with 0%Z in L. lia.
Qed.

(** X1: in every result the PDOP of each position is between 1 and 15, its
    accuracy is at least 1, the epochs of positionData are 0, 1, ...,
    max(50, number of observations) - 1 in order, and pdopValues lists the
    PDOP of the positions in the same order. *)
Theorem positions_within_bounds (obs : list Observation) (eph : list Ephemeris)
    (rnd : nat -> Q) (n : nat) :
  let results := fst (generateRealisticResults obs eph rnd n) in
  Forall (fun p => (1 <= pdop p /\ pdop p <= 15)%Q) (positionData results) /\
  Forall (fun p => (1 <= accuracy p)%Q) (positionData results) /\
  map pos_epoch (positionData results) = seq 0 (Nat.max 50 (List.length obs)) /\
  pdopValues results = map pdop (positionData results).
Proof.
  cbv zeta. rewrite positionData_generate.
  set (fixes := fst (generatedFixes (Nat.max 50 (List.length obs)) rnd n)).
  repeat match goal with |- _ /\ _ => split end.
  - apply (Forall_of_map pdop (fun q => (1 <= q /\ q <= 15)%Q) _ fixes).
    + now apply withJumps_map.
    + apply mapM_Forall. intros a k. apply genPosition_pdop.
  - apply (Forall_of_map accuracy (fun q => (1 <= q)%Q) _ fixes).
    + now apply withJumps_map.
    + apply mapM_Forall. intros a k. apply genPosition_accuracy.
  - rewrite withJumps_map by reflexivity. apply mapM_genPosition_epochs.
  - reflexivity.
Qed.

(** X2: with draws in [0, 1) every position reports between 4 and 11
    visible satellites (4 + floor(8 r) never reaches 12). *)
Theorem visible_satellites_4_to_11 (obs : list Observation)
    (eph : list Ephemeris) (rnd : nat -> Q) (n : nat) :
  unitStream rnd ->
  Forall (fun p => (4 <= pos_numSats p <= 11)%Z)
         (positionData (fst (generateRealisticResults obs eph rnd n))).
Proof.
  intros U. rewrite positionData_generate.
  apply (Forall_of_map pos_numSats (fun k => (4 <= k <= 11)%Z) _
           (fst (generatedFixes (Nat.max 50 (List.length obs)) rnd n))).
  - now apply withJumps_map.
  - apply mapM_Forall. intros a k. now apply genPosition_numSats.
Qed.

Lemma visible_satellites_4_to_11_witness :
  Forall (fun p => (4 <= pos_numSats p <= 11)%Z)
         (positionData (fst (generateRealisticResults [] [] (fun _ => 0.5%Q) 0))).
Proof.
  exact (visible_satellites_4_to_11 [] [] (fun _ => 0.5%Q) 0 half_unit).
Defined.

Lemma unique_from_spec (l : list nat) : forall seen,
  NoDup seen ->
  let out := fold_left (fun seen v => if existsb (Nat.eqb v) seen then seen
                                      else seen ++ [v]) l seen in
  NoDup out /\ forall v, In v out <-> In v seen \/ In v l.
Proof.
  induction l as [|a l IH]; intros seen N; cbn [fold_left].
  - split; [exact N|]. intros v. cbn. tauto.
  - destruct (existsb (Nat.eqb a) seen) eqn:E.
    + destruct (IH seen N) as [N' I]. split; [exact N'|].
      intros v. rewrite I. cbn [In]. split; [tauto|].
      intros [H|[<-|H]]; auto. left.
      apply existsb_exists in E. destruct E as (w & Hw & E).
      apply Nat.eqb_eq in E. now subst w.
    + assert (Na : NoDup (seen ++ [a])).
      { apply NoDup_app; [exact N | repeat constructor; intros [] |].
        intros w Hw [Ew|[]]. subst w.
        assert (X : existsb (Nat.eqb a) seen = true)
          by (apply existsb_exists; exists a; split; [exact Hw | apply Nat.eqb_refl]).
        congruence. }
      destruct (IH (seen ++ [a]) Na) as [N' I]. split; [exact N'|].
      intros v. rewrite I, in_app_iff. cbn [In]. tauto.
Qed.

(** X3: flaggedEpochs is the union of highPdop and positionJumps as a set:
    it has no repeated epoch, and an epoch is in it exactly when it is in
    highPdop or in positionJumps; highPdop holds exactly the epochs of the
    positions whose PDOP exceeds 6. *)
Theorem flaggedEpochs_is_union (obs : list Observation) (eph : list Ephemeris)
    (rnd : nat -> Q) (n : nat) :
  let results := fst (generateRealisticResults obs eph rnd n) in
  NoDup (flaggedEpochs results) /\
  (forall e, In e (flaggedEpochs results) <->
             In e (highPdop results) \/ In e (positionJumps results)) /\
  (forall e, In e (highPdop results) <->
             exists p, In p (positionData results) /\ pos_epoch p = e /\
                       (6 < pdop p)%Q).
Proof.
  cbv zeta.
  set (results := fst (generateRealisticResults obs eph rnd n)).
  assert (F : flaggedEpochs results
              = unique (highPdop results ++ positionJumps results))
    by reflexivity.
  assert (P : highPdop results
              = map pos_epoch (filter (fun p => Qltb 6 (pdop p))
                                      (positionData results)))
    by reflexivity.
  destruct (unique_from_spec (highPdop results ++ positionJumps results) []
              (NoDup_nil _)) as [N I].
  split; [rewrite F; exact N|]. split.
  - intros e. rewrite F. unfold unique. rewrite I, in_app_iff. cbn [In]. tauto.
  - intros e. rewrite P, in_map_iff. split.
    + intros (p & E & H). apply filter_In in H. destruct H as [H L].
      exists p. repeat split; [exact H | exact E | now apply Qltb_lt].
    + intros (p & H & E & L). exists p. split; [exact E|].
      apply filter_In. split; [exact H | now apply Qltb_lt].
Qed.

Lemma setAdd_spec ids v :
  NoDup ids ->
  NoDup (setAdd ids v) /\ (forall w, In w (setAdd ids v) <-> In w ids \/ w = v).
Proof.
  intros N. unfold setAdd. destruct (existsb (String.eqb v) ids) eqn:E.
  - split; [exact N|]. intros w. split; [tauto|]. intros [H| ->]; [exact H|].
    apply existsb_exists in E. destruct E as (u & Hu & E).
    apply String.eqb_eq in E. now subst u.
  - split.
    + apply NoDup_app; [exact N | repeat constructor; intros [] |].
      intros w Hw [Ew|[]]. subst w.
      assert (X : existsb (String.eqb v) ids = true)
        by (apply existsb_exists; exists v; split; [exact Hw | apply String.eqb_refl]).
      congruence.
    + intros w. rewrite in_app_iff. cbn [In]. intuition.
Qed.

Lemma fold_setAdd_spec (l : list string) : forall ids,
  NoDup ids ->
  NoDup (fold_left setAdd l ids) /\
  (forall w, In w (fold_left setAdd l ids) <-> In w ids \/ In w l).
Proof.
  induction l as [|a l IH]; intros ids N; cbn [fold_left].
  - split; [exact N|]. intros w. cbn. tauto.
  - destruct (setAdd_spec ids a N) as [Na Ia].
    destruct (IH _ Na) as [N' I]. split; [exact N'|].
    intros w. rewrite I, Ia. cbn [In]. intuition.
Qed.

(** The ids of the observations, in reading order. *)
Definition observedIds (obs : list Observation) : list string :=
  flat_map (fun o => map satellite (satellites o)) obs.

Lemma satelliteList_observedIds obs :
  satelliteList obs
  = firstn 12 (fold_left setAdd commonSats (fold_left setAdd (observedIds obs) [])).
Proof.
  unfold satelliteList. do 2 f_equal. unfold observedIds.
  generalize (@nil string) as ids.
  induction obs as [|o obs IH]; intros ids; [reflexivity|].
  cbn [fold_left flat_map]. rewrite fold_left_app, IH. f_equal.
  generalize ids. induction (satellites o) as [|s l IHl]; intros ids';
    [reflexivity|]. cbn [fold_left map]. apply IHl.
Qed.

Lemma NoDup_firstn {A : Type} k (l : list A) : NoDup l -> NoDup (firstn k l).
Proof.
  intros N. rewrite <- (firstn_skipn k l) in N.
  now apply NoDup_app_remove_r in N.
Qed.

Lemma satelliteList_spec obs :
  NoDup (satelliteList obs) /\
  10 <= List.length (satelliteList obs) <= 12 /\
  (forall s, In s (satelliteList obs) -> In s (observedIds obs) \/ In s commonSats).
Proof.
  rewrite satelliteList_observedIds.
  destruct (fold_setAdd_spec (observedIds obs) [] (NoDup_nil _)) as [N1 I1].
  destruct (fold_setAdd_spec commonSats _ N1) as [N2 I2].
  set (all := fold_left setAdd commonSats (fold_left setAdd (observedIds obs) [])) in *.
  split; [now apply NoDup_firstn|]. split.
  - rewrite length_firstn.
    assert (L : 10 <= List.length all).
    { change 10 with (List.length commonSats). apply NoDup_incl_length.
      - unfold commonSats. repeat constructor; cbn; intuition discriminate.
      - intros s H. apply I2. now right. }
    lia.
  - intros s H.
    assert (H' : In s all)
      by (rewrite <- (firstn_skipn 12 all); apply in_or_app; now left).
    apply I2 in H'. rename H' into H0. clear H. rename H0 into H.
    rewrite I1 in H.
    cbn [In] in H. tauto.
Qed.

(** X4: whatever the input, the result names between 10 and 12 satellites,
    all distinct, each one observed in the input or one of G01 to G10, and
    dataQuality is "Good": the tiers "Fair" and "Poor" are never returned. *)
Theorem satellites_10_to_12_quality_good (obs : list Observation)
    (eph : list Ephemeris) (rnd : nat -> Q) (n : nat) :
  let results := fst (generateRealisticResults obs eph rnd n) in
  10 <= totalSatellites (processingInfo results) <= 12 /\
  dataQuality (processingInfo results) = "Good" /\
  List.length (satelliteHealth results) = totalSatellites (processingInfo results) /\
  NoDup (map sv (satelliteHealth results)) /\
  (forall s, In s (map sv (satelliteHealth results)) ->
             In s (observedIds obs) \/ In s commonSats).
Proof.
  cbv zeta.
  set (results := fst (generateRealisticResults obs eph rnd n)).
  destruct (satelliteList_spec obs) as (N & L & I).
  assert (T : totalSatellites (processingInfo results)
              = List.length (satelliteList obs)) by reflexivity.
  assert (Q : dataQuality (processingInfo results)
              = qualityOf (List.length (satelliteList obs))) by reflexivity.
  assert (S : map sv (satelliteHealth results) = satelliteList obs).
  { unfold results, generateRealisticResults, bind. cbv zeta.
    apply assess_lengths. }
  repeat match goal with |- _ /\ _ => split end.
  - lia.
  - lia.
  - rewrite Q. unfold qualityOf.
    destruct (8 <=? List.length (satelliteList obs)) eqn:E; [reflexivity|].
    apply Nat.leb_gt in E. lia.
  - rewrite T, <- S. now rewrite length_map.
  - now rewrite S.
  - now rewrite S.
Qed.

(** X5: the result depends on the parsed observations only through their
    number and the satellite ids they name, and not at all on the ephemeris:
    two calls with the same draws, as many observations and the same ids in
    the same order return the same result, whatever the observables, the
    epoch times and the ephemeris records are. *)
Theorem result_ignores_observables_and_ephemeris
    (obs1 obs2 : list Observation) (eph1 eph2 : list Ephemeris)
    (rnd : nat -> Q) (n : nat) :
  List.length obs1 = List.length obs2 ->
  observedIds obs1 = observedIds obs2 ->
  generateRealisticResults obs1 eph1 rnd n = generateRealisticResults obs2 eph2 rnd n.
Proof.
  intros L I. unfold generateRealisticResults.
  rewrite L, (satelliteList_observedIds obs1), (satelliteList_observedIds obs2), I.
  reflexivity.
Qed.

Definition epochZero : Epoch := mkEpoch (Some 2024%Z) 1 1 0 0 (Fin 0) 0 1.

Lemma result_ignores_observables_and_ephemeris_witness :
  generateRealisticResults
    [mkObservation epochZero [mkSatObs "G07" (Fin 20000000) (Fin 1) (Fin 2) (Fin 40)]]
    [] (fun _ => 0.5%Q) 0
  = generateRealisticResults
      [mkObservation (epoch2 []) [mkSatObs "G07" (Fin 25000000) NaN (Inf true) (Fin 3)]]
      [mkEphemeris "G07" emptySatData] (fun _ => 0.5%Q) 0.
Proof.
  apply result_ignores_observables_and_ephemeris; reflexivity.
Defined.

(** X6: the content of the navigation file has no effect on the answer
    beyond the size check: two requests with the same observation file and
    any two navigation files of at least 100 characters get the same
    response and leave the random counter at the same place. *)
Theorem navigation_content_is_ignored (obs : option File) (nav1 nav2 : File)
    (rnd : nat -> Q) (n : nat) :
  100 <= String.length (text nav1) -> 100 <= String.length (text nav2) ->
  POST (inr (mkFormData obs (Some nav1))) rnd n
  = POST (inr (mkFormData obs (Some nav2))) rnd n.
Proof.
  intros L1 L2. unfold POST, handle. cbn [obsFile navFile].
  destruct obs as [o|]; [|reflexivity].
  apply Nat.ltb_ge in L1, L2. rewrite L1, L2.
  destruct (String.length (text o) <? 100); reflexivity.
Qed.

Lemma navigation_content_is_ignored_witness :
  POST (inr (mkFormData (Some (mkFile "a.24o" obsTwelve))
                        (Some (mkFile "a.24n" (navFile2 "85")))))
       (fun _ => 0.5%Q) 0
  = POST (inr (mkFormData (Some (mkFile "a.24o" obsTwelve))
                          (Some (mkFile "b.24n" blank100))))
         (fun _ => 0.5%Q) 0.
Proof.
  apply navigation_content_is_ignored;
    apply Nat.leb_le; vm_compute; reflexivity.
Defined.

Lemma round_clamp_ge_75 p : (75 <= p)%Q -> (75 <= round (clamp p))%Z.
Proof.
  intros H. unfold round.
  assert (C : (75 <= clamp p)%Q) by (apply clamp_ge; [discriminate | exact H]).
  assert (F : (Qfloor 75 <= Qfloor (clamp p + 0.5))%Z)
    by (apply Qfloor_resp_le; lra).
  exact F.
Qed.

Lemma assess_messages numEpochs sats jumps positions rnd n :
  let results := fst (assess numEpochs sats jumps positions rnd n) in
  recommendations results
  = recommendationsOf (threatLevel results) jumps
      (map sv (filter isUnhealthy (satelliteHealth results))) /\
  nth_error (anomalies results) 0
  = Some (mkAnomaly "Position Jump" (severityOf (List.length jumps) 2 0)
            (Z.of_nat (List.length jumps))
            "Sudden position discontinuities detected").
Proof.
  cbv zeta. unfold assess, bind, random, ret. cbv zeta.
  cbn [fst snd recommendations threatLevel satelliteHealth anomalies].
  split; reflexivity.
Qed.

(** X7: with draws in [0, 1) every result, on any input, has the level
    CRITICAL and a probability between 75 and 95; its second and third
    recommendations are the switch to alternative navigation and the jump
    message for the epochs 16, 33, 42, and its first anomaly is the position
    jump of severity High and count 3. *)
Theorem every_result_is_critical (obs : list Observation)
    (eph : list Ephemeris) (rnd : nat -> Q) (n : nat) :
  unitStream rnd ->
  let results := fst (generateRealisticResults obs eph rnd n) in
  threatLevel results = CRITICAL /\
  (75 <= spoofingProbability results <= 95)%Z /\
  nth_error (recommendations results) 1
  = Some "Switch to alternative navigation methods (INS, visual navigation, etc.)" /\
  nth_error (recommendations results) 2
  = Some "Investigate position jumps at epochs: 16, 33, 42" /\
  nth_error (anomalies results) 0
  = Some (mkAnomaly "Position Jump" "High" 3
            "Sudden position discontinuities detected").
Proof.
  intros U results.
  assert (T : threatLevel results = CRITICAL) by (apply threatLevel_unit, U).
  unfold results in *. rewrite generate_unit in * by exact U.
  set (numEpochs := Nat.max 50 (List.length obs)) in *.
  set (fixes := displace (fst (generatedFixes numEpochs rnd n))) in *.
  set (n1 := snd (generatedFixes numEpochs rnd n)) in *.
  destruct (assess_messages numEpochs (satelliteList obs) artificialJumps fixes
              rnd n1) as [R A].
  rewrite T in R.
  split; [exact T|]. split; [|split; [|split]].
  - split; [|apply round_clamp_bounds].
    unfold assess, bind, random, ret. cbv zeta. cbn [fst snd spoofingProbability].
    apply round_clamp_ge_75.
    eapply Qle_trans; [|apply (baseScore_ge _ _ 0)];
      [discriminate | apply flagged_at_least_three | lia | apply U].
  - rewrite R. reflexivity.
  - rewrite R. reflexivity.
  - rewrite A. reflexivity.
Qed.

Lemma every_result_is_critical_witness :
  threatLevel (fst (generateRealisticResults [] [] (fun _ => 0.5%Q) 0)) = CRITICAL.
Proof.
  exact (proj1 (every_result_is_critical [] [] (fun _ => 0.5%Q) 0 half_unit)).
Defined.

Lemma genHealth_ranges satId rnd n :
  unitStream rnd ->
  let h := fst (genHealth satId rnd n) in
  sv h = satId /\
  (0.1 <= health h /\ health h < 1)%Q /\
  (30 <= h_snr h /\ h_snr h <= 50)%Q /\
  (15 <= elevation h /\ elevation h < 90)%Q /\
  (0 <= azimuth h /\ azimuth h < 360)%Q.
Proof.
  intros U. unfold genHealth, bind, random, ret. cbv zeta.
  cbn [fst snd sv health h_snr elevation azimuth].
  destruct (U n) as [A0 A1]. destruct (U (S n)) as [B0 B1].
  destruct (U (S (S n))) as [C0 C1]. destruct (U (S (S (S n)))) as [D0 D1].
  split; [reflexivity|]. split; [|repeat split; lra].
  split; [apply Q.le_max_l|].
  apply Q.max_lub_lt; [reflexivity|].
  destruct (String.eqb satId "G02" || String.eqb satId "G04"); lra.
Qed.

(** X8: with draws in [0, 1) every entry of satelliteHealth has a health
    score in [0.1, 1), an SNR in [30, 50] (the sum 30 + r * 20 rounds up to
    50 at the largest draws), an elevation in [15, 90) and an azimuth in
    [0, 360); the entries of G02 and G04, when present, are always
    below the 0.5 threshold, so they are always counted as unhealthy. *)
Theorem satelliteHealth_ranges (obs : list Observation) (eph : list Ephemeris)
    (rnd : nat -> Q) (n : nat) :
  unitStream rnd ->
  Forall (fun h =>
            (0.1 <= health h /\ health h < 1)%Q /\
            (30 <= h_snr h /\ h_snr h <= 50)%Q /\
            (15 <= elevation h /\ elevation h < 90)%Q /\
            (0 <= azimuth h /\ azimuth h < 360)%Q /\
            (sv h = "G02" \/ sv h = "G04" -> isUnhealthy h = true))
         (satelliteHealth (fst (generateRealisticResults obs eph rnd n))).
Proof.
  intros U.
  assert (S : exists k,
             satelliteHealth (fst (generateRealisticResults obs eph rnd n))
             = fst (mapM genHealth (satelliteList obs) rnd k))
    by (eexists; reflexivity).
  destruct S as (k & ->).
  apply mapM_Forall. intros satId m.
  destruct (genHealth_ranges satId rnd m U) as (E & H & S & L & A).
  repeat match goal with |- _ /\ _ => split end; try tauto.
  rewrite E. intros G. now apply G02_G04_unhealthy.
Qed.

Lemma satelliteHealth_ranges_witness :
  Forall (fun h => (0.1 <= health h /\ health h < 1)%Q)
         (satelliteHealth (fst (generateRealisticResults [] [] (fun _ => 0.5%Q) 0))).
Proof.
  eapply Forall_impl;
    [|exact (satelliteHealth_ranges [] [] (fun _ => 0.5%Q) 0 half_unit)].
  intros h H. apply H.
Defined.

(** ** How many draws a run makes *)

Lemma mapM_counter {A B : Type} (f : A -> Rand B) (c : A -> nat) rnd
    (l : list A) :
  (forall a n, snd (f a rnd n) = n + c a) ->
  forall n, snd (mapM f l rnd n) = n + list_sum (map c l).
Proof.
  intros H. induction l as [|a l IH]; intros n.
  - cbn. lia.
  - rewrite mapM_cons. cbn [snd]. rewrite IH, H. simpl. lia.
Qed.

Definition positionDraws (i : nat) : nat := if isSpike i then 8 else 7.

Lemma genPosition_counter i rnd n :
  snd (genPosition i rnd n) = n + positionDraws i.
Proof.
  unfold genPosition, positionDraws, bind, random, ret. cbv zeta.
  destruct (isSpike i); cbv beta iota zeta delta [fst snd]; lia.
Qed.

Lemma positionDraws_from_50 k : forall a,
  50 <= a -> list_sum (map positionDraws (seq a k)) = 7 * k.
Proof.
  induction k as [|k IH]; intros a H; [reflexivity|].
  simpl. rewrite IH by lia.
  unfold positionDraws, isSpike.
  destruct (a =? 15) eqn:E1; [apply Nat.eqb_eq in E1; lia|].
  destruct (a =? 32) eqn:E2; [apply Nat.eqb_eq in E2; lia|].
  destruct (a =? 41) eqn:E3; [apply Nat.eqb_eq in E3; lia|].
  cbn [orb]. lia.
Qed.

Lemma positionDraws_total numEpochs :
  50 <= numEpochs ->
  list_sum (map positionDraws (seq 0 numEpochs)) = 7 * numEpochs + 3.
Proof.
  intros H. replace numEpochs with (50 + (numEpochs - 50)) at 1 by lia.
  rewrite seq_app, map_app, list_sum_app.
  rewrite (positionDraws_from_50 _ (0 + 50)) by lia.
  change (list_sum (map positionDraws (seq 0 50))) with 353. lia.
Qed.

Lemma withJumps_length l : List.length (snd (withJumps l)) = List.length l.
Proof.
  unfold withJumps. destruct (detectJumps l); [|reflexivity].
  cbn [snd]. apply displace_length.
Qed.

Lemma assess_counter numEpochs sats jumps positions rnd n :
  snd (assess numEpochs sats jumps positions rnd n)
  = n + 4 * List.length sats + 3 * List.length positions + 1.
Proof.
  unfold assess, bind. cbv zeta. unfold random at 1, ret. cbn [fst snd].
  rewrite (mapM_counter genSignal (fun _ => 3)).
  2:{ intros a k. unfold genSignal, bind, random, ret. cbn. lia. }
  rewrite (mapM_counter genHealth (fun _ => 4)).
  2:{ intros a k. unfold genHealth, bind, random, ret. cbn. lia. }
  assert (C : forall (A : Type) (l : list A) k,
             list_sum (map (fun _ => k) l) = k * List.length l).
  { intros A l k. induction l as [|a l IH]; simpl;
      [|rewrite IH, Nat.mul_succ_r]; lia. }
  rewrite !C, length_seq. unfold random. cbn [snd]. lia.
Qed.

(** X9: a call of the generator makes exactly 10 numEpochs + 4
    totalSatellites + 4 draws from the random source, numEpochs being
    max(50, number of observations): 7 per epoch and one more at the epochs
    15, 32 and 41, 4 per satellite, 3 per epoch of signal data, and 1 for the
    probability; the count does not depend on the values drawn. *)
Theorem generator_draw_count (obs : list Observation) (eph : list Ephemeris)
    (rnd : nat -> Q) (n : nat) :
  let run := generateRealisticResults obs eph rnd n in
  snd run
  = n + 10 * totalEpochs (processingInfo (fst run))
    + 4 * totalSatellites (processingInfo (fst run)) + 4.
Proof.
  cbv zeta. rewrite totalEpochs_generate.
  assert (S : totalSatellites
                (processingInfo (fst (generateRealisticResults obs eph rnd n)))
              = List.length (satelliteList obs)) by reflexivity.
  rewrite S. clear S.
  unfold generateRealisticResults, bind. cbv zeta.
  rewrite assess_counter, withJumps_length, generatedFixes_length.
  unfold generatedFixes.
  rewrite (mapM_counter genPosition positionDraws)
    by (intros; apply genPosition_counter).
  rewrite positionDraws_total by apply Nat.le_max_l. lia.
Qed.

(** ** The displaced fixes in the returned positions *)

Local Open Scope R_scope.

Lemma onTrack_deltas i prev curr :
  onTrack i prev -> onTrack (S i) curr ->
  -60 <= x curr - x prev <= 60 /\
  -60 <= y curr - y prev <= 60 /\
  -27.5 <= z curr - z prev <= 27.5.
Proof.
  intros (_ & Hx & Hy & Hz) (_ & Hx' & Hy' & Hz').
  unfold trackX, trackY, trackZ in *. rewrite S_INR in *.
  pose proof (sin_step ((INR i + 1) * 0.1) (INR i * 0.1) ltac:(lra)) as Sx.
  pose proof (cos_step ((INR i + 1) * 0.1) (INR i * 0.1) ltac:(lra)) as Sy.
  pose proof (sin_step ((INR i + 1) * 0.05) (INR i * 0.05) ltac:(lra)) as Sz.
  repeat split; lra.
Qed.

Lemma tracked_nth (d : Position) l : forall a i,
  tracked a l -> (i < List.length l)%nat -> onTrack (a + i) (nth i l d).
Proof.
  induction l as [|p l IH]; intros a i T Hi; simpl in Hi; [lia|].
  destruct T as [Hp Hl]. destruct i as [|i].
  - rewrite Nat.add_0_r. exact Hp.
  - replace (a + S i)%nat with (S a + i)%nat by lia. apply IH; [exact Hl | lia].
Qed.

(** The fix at index [k] after [shiftAt]. *)
Definition shifted (dx dy dz : R) (p : Position) : Position :=
  mkPosition (pos_epoch p) (x p + dx) (y p + dy) (z p + dz)
    (pdop p) (accuracy p) (pos_numSats p).

Lemma shiftAt_nth_same (d : Position) dx dy dz l : forall k,
  (k < List.length l)%nat ->
  nth k (shiftAt k dx dy dz l) d = shifted dx dy dz (nth k l d).
Proof.
  induction l as [|p l IH]; intros k H; simpl in H; [lia|].
  destruct k as [|k]; [reflexivity|]. cbn [shiftAt nth]. apply IH. lia.
Qed.

Lemma shiftAt_nth_other (d : Position) dx dy dz l : forall k j,
  j <> k -> nth j (shiftAt k dx dy dz l) d = nth j l d.
Proof.
  induction l as [|p l IH]; intros k j H.
  - destruct k; reflexivity.
  - destruct k as [|k], j as [|j]; cbn [shiftAt nth]; try reflexivity;
      [congruence | apply IH; congruence].
Qed.

Lemma far_apart (a b : Position) :
  100 ^ 2 < (x b - x a) ^ 2 + (y b - y a) ^ 2 + (z b - z a) ^ 2 ->
  100 < distance a b.
Proof.
  intros H. unfold distance. rewrite <- (sqrt_pow2 100) at 1 by lra.
  apply sqrt_lt_1; [nra | nra | exact H].
Qed.

(** X10: with draws in [0, 1), in the returned positionData the fixes of
    epochs 16, 33 and 42 are more than 100 m from the fixes before them, and
    the fixes of epochs 17, 34 and 43 are more than 100 m from those displaced
    fixes; positionJumps lists 16, 33 and 42 only, so the three return
    discontinuities at 17, 34 and 43 are in the data and are not flagged. *)
Theorem displaced_fixes_leave_unflagged_jumps (obs : list Observation)
    (eph : list Ephemeris) (rnd : nat -> Q) (n : nat) (d : Position) :
  unitStream rnd ->
  let results := fst (generateRealisticResults obs eph rnd n) in
  let fix_ := fun i => nth i (positionData results) d in
  (forall k, In k [16; 33; 42]%nat ->
             100 < distance (fix_ (k - 1)%nat) (fix_ k) /\
             100 < distance (fix_ k) (fix_ (S k)) /\
             In k (positionJumps results) /\
             ~ In (S k) (positionJumps results)).
Proof.
  intros U results fix_ k Hk.
  assert (J : positionJumps results = artificialJumps).
  { unfold results. rewrite positionJumps_generate.
    now rewrite generated_withJumps. }
  assert (P : positionData results
              = displace (fst (generatedFixes (Nat.max 50 (List.length obs)) rnd n))).
  { unfold results. rewrite positionData_generate.
    now rewrite generated_withJumps. }
  set (fixes := fst (generatedFixes (Nat.max 50 (List.length obs)) rnd n)) in *.
  assert (L : (50 <= List.length fixes)%nat).
  { unfold fixes. rewrite generatedFixes_length. apply Nat.le_max_l. }
  assert (T : tracked 0 fixes) by (apply generated_tracked, U).
  assert (O : forall i, (i < 50)%nat -> onTrack i (nth i fixes d)).
  { intros i Hi. apply (tracked_nth d fixes 0 i T). lia. }
  unfold fix_. rewrite P, J. unfold displace, artificialJumps.
  destruct Hk as [<-|[<-|[<-|[]]]]; cbn [Nat.sub].
  - rewrite !(shiftAt_nth_other d _ _ _ _ 42) by lia.
    rewrite !(shiftAt_nth_other d _ _ _ _ 33) by lia.
    rewrite (shiftAt_nth_same d) by lia.
    rewrite !(shiftAt_nth_other d _ _ _ _ 16) by lia.
    destruct (onTrack_deltas 15 _ _ (O 15%nat ltac:(lia)) (O 16%nat ltac:(lia)))
      as (X1 & Y1 & Z1).
    destruct (onTrack_deltas 16 _ _ (O 16%nat ltac:(lia)) (O 17%nat ltac:(lia)))
      as (X2 & Y2 & Z2).
    repeat match goal with |- _ /\ _ => split end.
    + apply far_apart. unfold shifted. cbn [x y z]. nra.
    + apply far_apart. unfold shifted. cbn [x y z]. nra.
    + cbn. tauto.
    + cbn. lia.
  - rewrite !(shiftAt_nth_other d _ _ _ _ 42) by lia.
    rewrite (shiftAt_nth_same d) by (rewrite shiftAt_length; lia).
    rewrite !(shiftAt_nth_other d _ _ _ _ 33) by lia.
    rewrite !(shiftAt_nth_other d _ _ _ _ 16) by lia.
    destruct (onTrack_deltas 32 _ _ (O 32%nat ltac:(lia)) (O 33%nat ltac:(lia)))
      as (X1 & Y1 & Z1).
    destruct (onTrack_deltas 33 _ _ (O 33%nat ltac:(lia)) (O 34%nat ltac:(lia)))
      as (X2 & Y2 & Z2).
    repeat match goal with |- _ /\ _ => split end.
    + apply far_apart. unfold shifted. cbn [x y z]. nra.
    + apply far_apart. unfold shifted. cbn [x y z]. nra.
    + cbn. tauto.
    + cbn. lia.
  - rewrite (shiftAt_nth_same d) by (rewrite !shiftAt_length; lia).
    rewrite !(shiftAt_nth_other d _ _ _ _ 42) by lia.
    rewrite !(shiftAt_nth_other d _ _ _ _ 33) by lia.
    rewrite !(shiftAt_nth_other d _ _ _ _ 16) by lia.
    destruct (onTrack_deltas 41 _ _ (O 41%nat ltac:(lia)) (O 42%nat ltac:(lia)))
      as (X1 & Y1 & Z1).
    destruct (onTrack_deltas 42 _ _ (O 42%nat ltac:(lia)) (O 43%nat ltac:(lia)))
      as (X2 & Y2 & Z2).
    repeat match goal with |- _ /\ _ => split end.
    + apply far_apart. unfold shifted. cbn [x y z]. nra.
    + apply far_apart. unfold shifted. cbn [x y z]. nra.
    + cbn. tauto.
    + cbn. lia.
Qed.

Local Close Scope R_scope.

Lemma displaced_fixes_leave_unflagged_jumps_witness :
  let results := fst (generateRealisticResults [] [] (fun _ => 0.5%Q) 0) in
  In 16 (positionJumps results) /\ ~ In 17 (positionJumps results).
Proof.
  pose proof (displaced_fixes_leave_unflagged_jumps [] [] (fun _ => 0.5%Q) 0
                (mkPosition 0 0 0 0 1 1 4) half_unit 16 (or_introl eq_refl)) as H.
  split; apply H.
Defined.

(** * Further properties of the observation parser *)

(** The state after one line keeps the observations or is the flush of the
    open epoch. *)
Lemma obsLine_observations st line rnd n :
  observations (fst (obsLine st line rnd n)) = observations st \/
  observations (fst (obsLine st line rnd n)) = flushEpoch st.
Proof.
  unfold obsLine.
  destruct (isEmpty (trim line)); [now left|].
  destruct (negb (headerComplete st)); [now left|].
  destruct (geq (rinexVersion st) 3).
  - unfold obsBodyLine3. destruct (startsWith ">" line); [now right|].
    destruct (_ && _); now left.
  - unfold obsBodyLine2. destruct (matches epochRe2 line); [now right|].
    destruct (currentEpoch st); [|now left].
    destruct (_ && _); [|now left].
    destruct (obsValues2 line); now left.
Qed.

Lemma flushEpoch_Forall (P : Observation -> Prop) st :
  Forall P (observations st) ->
  (forall e, currentEpoch st = Some e -> epochData st <> [] ->
             P (mkObservation e (epochData st))) ->
  Forall P (flushEpoch st).
Proof.
  intros H K. unfold flushEpoch.
  destruct (currentEpoch st) as [e|]; [|exact H].
  destruct (epochData st) as [|a l] eqn:E; [exact H|].
  apply Forall_app. split; [exact H|]. constructor; [|constructor].
  apply K; [reflexivity | discriminate].
Qed.

Lemma foldM_obsLine_nonempty lines : forall st rnd n,
  Forall (fun o => satellites o <> []) (observations st) ->
  Forall (fun o => satellites o <> [])
         (observations (fst (foldM obsLine lines st rnd n))).
Proof.
  induction lines as [|line lines IH]; intros st rnd n H; [exact H|].
  cbn [foldM]. unfold bind. cbv zeta. apply IH.
  destruct (obsLine_observations st line rnd n) as [-> | ->]; [exact H|].
  apply flushEpoch_Forall; [exact H|]. intros e _ N. exact N.
Qed.

(** X11: every observation the parser returns has at least one satellite:
    an epoch without satellite records is dropped, whatever the file and the
    draws are. *)
Theorem parsed_epochs_have_satellites (content : string) (rnd : nat -> Q)
    (n : nat) :
  Forall (fun o => satellites o <> [])
         (fst (parseRinexObservation content rnd n)).
Proof.
  unfold parseRinexObservation, bind, ret. cbv zeta. cbn [fst].
  apply flushEpoch_Forall.
  - apply foldM_obsLine_nonempty. constructor.
  - intros e _ N. exact N.
Qed.

(** A satellite record as the parser builds it: a three-character id, and a
    pseudorange and an SNR that are numbers other than zero. *)
Definition wellFormed (sat : SatObs) : Prop :=
  String.length (satellite sat) = 3 /\
  truthy (pseudorange sat) = true /\
  truthy (snr sat) = true.

Lemma take_length k : forall s,
  String.length (take k s) = Nat.min k (String.length s).
Proof.
  induction k as [|k IH]; intros [|c s]; cbn [take String.length]; auto.
  rewrite IH. reflexivity.
Qed.

Lemma substring_0_3_length s :
  3 <= String.length s -> String.length (substring 0 3 s) = 3.
Proof.
  intros H. unfold substring. cbn [drop Nat.sub]. rewrite take_length. lia.
Qed.

Lemma truthy_positive q : (0 < q)%Q -> truthy (Fin q) = true.
Proof.
  intros H. cbn [truthy]. destruct (Qeq_bool q 0) eqn:E; [|reflexivity].
  apply Qeq_bool_iff in E. lra.
Qed.

Lemma fillDefault_truthy f fs rnd n :
  unitStream rnd -> f = Pseudorange \/ f = Snr ->
  truthy (fst (fillDefault f fs rnd n)) = true.
Proof.
  intros U F. unfold fillDefault.
  assert (D : truthy (Fin (defaultValue f (rnd n))) = true).
  { apply truthy_positive. destruct (U n) as [H0 H1].
    destruct F as [-> | ->]; unfold defaultValue; lra. }
  destruct (fs f) as [v|]; [|exact D].
  destruct (truthy v) eqn:T; [exact T | exact D].
Qed.

Lemma satLine3_wellFormed types line rnd n :
  unitStream rnd -> 3 < String.length line ->
  wellFormed (fst (satLine3 types line rnd n)).
Proof.
  intros U L. unfold satLine3, bind, ret. cbv zeta.
  cbn [fst snd]. unfold wellFormed. cbn [satellite pseudorange snr].
  repeat match goal with |- _ /\ _ => split end.
  - apply substring_0_3_length. lia.
  - apply fillDefault_truthy; [exact U | now left].
  - apply fillDefault_truthy; [exact U | now right].
Qed.

Lemma listedSat2_wellFormed token rnd n :
  unitStream rnd -> 3 <= String.length token ->
  wellFormed (fst (listedSat2 token rnd n)).
Proof.
  intros U L. unfold listedSat2, bind, random, ret. cbv zeta.
  cbn [fst snd]. unfold wellFormed. cbn [satellite pseudorange snr].
  repeat match goal with |- _ /\ _ => split end.
  - now apply substring_0_3_length.
  - apply truthy_positive. destruct (U n). unfold defaultValue. lra.
  - apply truthy_positive. destruct (U (S (S (S n)))). unfold defaultValue. lra.
Qed.

Lemma listedSats2_wellFormed parts k rnd n :
  unitStream rnd -> Forall wellFormed (fst (listedSats2 parts k rnd n)).
Proof.
  intros U. unfold listedSats2.
  generalize (firstn (Z.to_nat k) (skipn 8 parts)) as l.
  assert (G : forall l acc m,
             Forall wellFormed acc ->
             Forall wellFormed
               (fst (foldM (fun acc token =>
                              if 3 <=? String.length token then
                                o <- listedSat2 token;; ret (acc ++ [o])
                              else ret acc) l acc rnd m))).
  { induction l as [|t l IH]; intros acc m H; [exact H|].
    cbn [foldM]. unfold bind at 1. cbv zeta. apply IH.
    destruct (3 <=? String.length t) eqn:E; [|exact H].
    unfold bind, ret. cbv zeta. cbn [fst]. apply Forall_app. split; [exact H|].
    constructor; [|constructor]. apply listedSat2_wellFormed; [exact U|].
    now apply Nat.leb_le. }
  intros l. apply G. constructor.
Qed.

Lemma storeValue2_wellFormed k f p nm vs ts sat :
  wellFormed sat -> wellFormed (storeValue2 k f p nm vs ts sat).
Proof.
  intros W. unfold storeValue2.
  destruct (nth_error vs k) as [v|]; [|exact W].
  destruct (nth_error ts k) as [t|]; [|exact W].
  destruct (truthy v) eqn:T; cbn [andb]; [|exact W].
  destruct (negb (isEmpty t) && _); [|exact W].
  destruct W as (A & B & C). unfold wellFormed.
  destruct f; cbn [setObservable satellite pseudorange snr]; auto.
Qed.

Lemma updateLast_Forall (P : SatObs -> Prop) f l :
  (forall o, P o -> P (f o)) -> Forall P l -> Forall P (updateLast f l).
Proof.
  intros H F. unfold updateLast.
  destruct (rev l) as [|last front] eqn:E; [constructor|].
  apply (f_equal (@rev _)) in E. rewrite rev_involutive in E. subst l.
  cbn [rev] in F. apply Forall_app in F. destruct F as [F1 F2].
  apply Forall_app. split; [exact F1|].
  inversion F2; subst. constructor; [now apply H | constructor].
Qed.

(** The records of the open epoch and of the closed ones are well formed. *)
Definition recordsWellFormed (st : ObsState) : Prop :=
  Forall wellFormed (epochData st) /\
  Forall (fun o => Forall wellFormed (satellites o)) (observations st).

Lemma flushEpoch_wellFormed st :
  recordsWellFormed st ->
  Forall (fun o => Forall wellFormed (satellites o)) (flushEpoch st).
Proof.
  intros [D O]. apply flushEpoch_Forall; [exact O|]. intros e _ _. exact D.
Qed.

Lemma obsLine_wellFormed st line rnd n :
  unitStream rnd -> recordsWellFormed st ->
  recordsWellFormed (fst (obsLine st line rnd n)).
Proof.
  intros U W. pose proof (flushEpoch_wellFormed st W) as F.
  destruct W as [D O]. unfold obsLine.
  destruct (isEmpty (trim line)); [now split|].
  destruct (negb (headerComplete st)); [now split|].
  destruct (geq (rinexVersion st) 3).
  - unfold obsBodyLine3. destruct (startsWith ">" line).
    { split; [constructor | exact F]. }
    destruct (3 <? String.length line) eqn:L; cbn [andb]; [|now split].
    destruct (matches satelliteRe (trim line)); [|now split].
    unfold bind, ret. cbv zeta. cbn [fst]. split; [|exact O].
    cbn [epochData]. apply Forall_app. split; [exact D|].
    constructor; [|constructor]. apply satLine3_wellFormed; [exact U|].
    now apply Nat.ltb_lt.
  - unfold obsBodyLine2. destruct (matches epochRe2 line).
    { unfold bind, ret. cbv zeta. cbn [fst]. split; [|exact F].
      cbn [epochData].
      destruct (8 <? List.length (splitWs (trim line))); [|constructor].
      now apply listedSats2_wellFormed. }
    destruct (currentEpoch st); [|now split].
    destruct (_ && _); [|now split].
    destruct (obsValues2 line) as [|v vs]; [now split|].
    unfold ret. cbn [fst]. split; [|exact O]. cbn [epochData].
    apply updateLast_Forall; [|exact D].
    intros o Wo. unfold storeValues2. now repeat apply storeValue2_wellFormed.
Qed.

Lemma foldM_obsLine_wellFormed lines rnd : forall st n,
  unitStream rnd -> recordsWellFormed st ->
  recordsWellFormed (fst (foldM obsLine lines st rnd n)).
Proof.
  induction lines as [|line lines IH]; intros st n U W; [exact W|].
  cbn [foldM]. unfold bind. cbv zeta. apply IH; [exact U|].
  now apply obsLine_wellFormed.
Qed.

(** X12: with draws in [0, 1) every satellite record the parser returns
    has an id of exactly three characters, a pseudorange that is a number
    other than zero and an SNR that is a number other than zero: neither
    observable is ever zero, NaN or absent in the output. *)
Theorem parsed_records_well_formed (content : string) (rnd : nat -> Q) (n : nat) :
  unitStream rnd ->
  Forall (fun o =>
            Forall (fun sat =>
                      String.length (satellite sat) = 3 /\
                      truthy (pseudorange sat) = true /\
                      truthy (snr sat) = true)
                   (satellites o))
         (fst (parseRinexObservation content rnd n)).
Proof.
  intros U. unfold parseRinexObservation, bind, ret. cbv zeta. cbn [fst].
  apply flushEpoch_wellFormed, foldM_obsLine_wellFormed; [exact U|].
  split; constructor.
Qed.

Lemma parsed_records_well_formed_witness :
  Forall (fun o =>
            Forall (fun sat =>
                      String.length (satellite sat) = 3 /\
                      truthy (pseudorange sat) = true /\
                      truthy (snr sat) = true)
                   (satellites o))
         (fst (parseRinexObservation obsBadField (fun _ => 0.25%Q) 0)).
Proof.
  exact (parsed_records_well_formed obsBadField (fun _ => 0.25%Q) 0 quarter_unit).
Defined.

(** ** Files without the header sentinel *)

Lemma foldM_obsLine_in_header lines rnd : forall st n,
  (forall line, In line lines -> includes "END OF HEADER" line = false) ->
  headerComplete st = false ->
  snd (foldM obsLine lines st rnd n) = n /\
  headerComplete (fst (foldM obsLine lines st rnd n)) = false /\
  currentEpoch (fst (foldM obsLine lines st rnd n)) = currentEpoch st /\
  observations (fst (foldM obsLine lines st rnd n)) = observations st.
Proof.
  induction lines as [|line lines IH]; intros st n H Hh.
  - cbn. auto.
  - cbn [foldM]. unfold bind. cbv zeta.
    assert (S : obsLine st line rnd n
                = (if isEmpty (trim line) then st else obsHeaderLine st line, n)).
    { unfold obsLine. rewrite Hh. cbn [negb].
      destruct (isEmpty (trim line)); reflexivity. }
    rewrite S. cbn [fst snd].
    set (st' := if isEmpty (trim line) then st else obsHeaderLine st line).
    assert (E : headerComplete st' = false /\
                currentEpoch st' = currentEpoch st /\
                observations st' = observations st).
    { unfold st'. destruct (isEmpty (trim line)); [auto|].
      unfold obsHeaderLine. cbn [headerComplete currentEpoch observations].
      rewrite (H line (or_introl eq_refl)). auto. }
    destruct E as (E1 & E2 & E3).
    destruct (IH st' n (fun l Hl => H l (or_intror Hl)) E1) as (A & B & C & D).
    rewrite A, B, C, D, E2, E3. auto.
Qed.

(** X13: an observation file in which no line contains END OF HEADER
    parses to no epoch at all, and the parser makes no draw: the lines after
    the header are never read as body text. *)
Theorem observation_without_sentinel_is_empty (content : string)
    (rnd : nat -> Q) (n : nat) :
  (forall line, In line (splitLines content) ->
                includes "END OF HEADER" line = false) ->
  parseRinexObservation content rnd n = ([], n).
Proof.
  intros H.
  destruct (foldM_obsLine_in_header (splitLines content) rnd obsInit n H eq_refl)
    as (A & B & C & D).
  unfold parseRinexObservation, bind, ret. cbv zeta. rewrite A. f_equal.
  unfold flushEpoch. rewrite C, D. reflexivity.
Qed.

Definition obsNoSentinel : string :=
  ("     2.11           OBSERVATION DATA    G (GPS)             RINEX VERSION / TYPE" ++ LF ++
   "     1    C1                                                # / TYPES OF OBSERV" ++ LF ++
   " 24  1  1  0  0  0.0000000  0  1 G01" ++ LF ++
   "  20123456.789")%string.

Lemma observation_without_sentinel_is_empty_witness :
  parseRinexObservation obsNoSentinel (fun _ => 0.5%Q) 7 = ([], 7).
Proof.
  apply observation_without_sentinel_is_empty.
  intros line H. vm_compute in H.
  destruct H as [<-|[<-|[<-|[<-|[]]]]]; vm_compute; reflexivity.
Defined.

Lemma fold_navLine_in_header lines : forall st,
  (forall line, In line lines -> includes "END OF HEADER" line = false) ->
  nav_headerComplete st = false ->
  nav_headerComplete (fold_left navLine lines st) = false /\
  currentSat (fold_left navLine lines st) = currentSat st /\
  ephemeris (fold_left navLine lines st) = ephemeris st.
Proof.
  induction lines as [|line lines IH]; intros st H Hh.
  - cbn. auto.
  - cbn [fold_left].
    assert (E : nav_headerComplete (navLine st line) = false /\
                currentSat (navLine st line) = currentSat st /\
                ephemeris (navLine st line) = ephemeris st).
    { unfold navLine. destruct (isEmpty (trim line)); [auto|].
      rewrite Hh. cbn [negb]. unfold navHeaderLine.
      cbn [nav_headerComplete currentSat ephemeris].
      rewrite (H line (or_introl eq_refl)). auto. }
    destruct E as (E1 & E2 & E3).
    destruct (IH (navLine st line) (fun l Hl => H l (or_intror Hl)) E1)
      as (A & B & C).
    rewrite A, B, C, E2, E3. auto.
Qed.

(** X14: a navigation file in which no line contains END OF HEADER parses
    to no ephemeris record. *)
Theorem navigation_without_sentinel_is_empty (content : string) :
  (forall line, In line (splitLines content) ->
                includes "END OF HEADER" line = false) ->
  parseRinexNavigation content = [].
Proof.
  intros H.
  destruct (fold_navLine_in_header (splitLines content) navInit H eq_refl)
    as (A & B & C).
  unfold parseRinexNavigation, flushSat. rewrite B, C. reflexivity.
Qed.

Definition navNoSentinel : string :=
  ("     2.11           N: GPS NAV DATA                         RINEX VERSION / TYPE" ++ LF ++
   " 1 85  1  1  0  0  0.0 1.0D-04 2.0D-11 0.0D+00" ++ LF ++
   "    1.0D+01 2.5D+00 4.0D-09 1.0D+00")%string.

Lemma navigation_without_sentinel_is_empty_witness :
  parseRinexNavigation navNoSentinel = [].
Proof.
  apply navigation_without_sentinel_is_empty.
  intros line H. vm_compute in H.
  destruct H as [<-|[<-|[<-|[]]]]; vm_compute; reflexivity.
Defined.

(** * Further properties of the navigation parser *)

(** The groups of a record are filled in order: the clock terms first, then
    the three orbit groups one after the other, as many as lines were
    counted. *)
Definition filledInOrder (d : SatData) (count : nat) : Prop :=
  isSome (clock d) = true /\
  isSome (orbit0 d) = (1 <=? count) /\
  isSome (orbit1 d) = (2 <=? count) /\
  isSome (orbit2 d) = (3 <=? count).

Definition orderedGroups (d : SatData) : Prop :=
  clock d <> None /\
  (orbit1 d <> None -> orbit0 d <> None) /\
  (orbit2 d <> None -> orbit1 d <> None).

Lemma isSome_true {A : Type} (o : option A) : isSome o = true <-> o <> None.
Proof. destruct o; cbn; split; congruence. Qed.

Lemma filledInOrder_ordered d count : filledInOrder d count -> orderedGroups d.
Proof.
  intros (C & O0 & O1 & O2). unfold orderedGroups.
  rewrite <- !isSome_true, O0, O1, O2.
  split; [exact C|].
  split; intros H; apply Nat.leb_le in H; apply Nat.leb_le; lia.
Qed.

Definition navInvariant (st : NavState) : Prop :=
  (forall sat, currentSat st = Some sat ->
               3 <= String.length sat /\ filledInOrder (satData st) (lineCount st)) /\
  Forall (fun e => 3 <= String.length (eph_satellite e) /\
                   orderedGroups (eph_data e)) (ephemeris st).

Lemma flushSat_invariant st :
  navInvariant st ->
  Forall (fun e => 3 <= String.length (eph_satellite e) /\
                   orderedGroups (eph_data e)) (flushSat st).
Proof.
  intros [C E]. unfold flushSat.
  destruct (currentSat st) as [sat|]; [|exact E].
  destruct (negb (isEmpty sat) && hasKeys (satData st)); [|exact E].
  apply Forall_app. split; [exact E|]. constructor; [|constructor].
  destruct (C sat eq_refl) as [L F]. cbn [eph_satellite eph_data].
  split; [exact L | now apply (filledInOrder_ordered _ (lineCount st))].
Qed.

Lemma padStart2_length s : 2 <= String.length (padStart2 s).
Proof.
  unfold padStart2. destruct s as [|a [|b s]]; cbn; lia.
Qed.

Lemma navHeader3_invariant st line :
  navInvariant st -> navInvariant (navHeader3 st line).
Proof.
  intros I. pose proof (flushSat_invariant st I) as F. unfold navHeader3.
  destruct (3 <? String.length line) eqn:L; cbn [andb]; [|exact I].
  destruct (matches satelliteRe (trim line)); [|exact I].
  split; [|exact F].
  cbn [currentSat satData lineCount]. intros sat E. injection E as <-.
  split; [|repeat split].
  apply Nat.ltb_lt in L. rewrite substring_0_3_length; lia.
Qed.

Lemma navHeader2_invariant st line :
  navInvariant st -> navInvariant (navHeader2 st line).
Proof.
  intros I. pose proof (flushSat_invariant st I) as F. unfold navHeader2.
  destruct ((2 <? String.length line) && matches satNumberRe line); [|exact I].
  split; [|exact F].
  cbn [currentSat satData lineCount]. intros sat E. injection E as <-.
  split; [|repeat split].
  unfold satName2. cbn [append String.length].
  pose proof (padStart2_length (intToString (parseIntAt (splitWs (trim line)) 0))).
  lia.
Qed.

Lemma navDataLine_invariant st line :
  navInvariant st -> navInvariant (navDataLine st line).
Proof.
  intros I. unfold navDataLine.
  destruct (currentSat st) as [sat|] eqn:S; [|exact I].
  destruct (_ && _); [|exact I].
  destruct I as [C E]. split; [|exact E].
  cbn [currentSat satData lineCount]. intros sat' Es.
  injection Es as <-.
  destruct (C sat S) as (L & K & O0 & O1 & O2). split; [exact L|].
  unfold filledInOrder.
  destruct (lineCount st) as [|[|[|k]]];
    cbn [clock orbit0 orbit1 orbit2 isSome]; cbn in O0, O1, O2 |- *; auto.
Qed.

Lemma navLine_invariant st line :
  navInvariant st -> navInvariant (navLine st line).
Proof.
  intros I. unfold navLine.
  destruct (isEmpty (trim line)); [exact I|].
  destruct (negb (nav_headerComplete st)); [exact I|].
  apply navDataLine_invariant.
  destruct (geq (nav_rinexVersion st) 3);
    [now apply navHeader3_invariant | now apply navHeader2_invariant].
Qed.

(** X15: every ephemeris record the navigation parser returns has a
    satellite id of at least three characters and its clock terms, and its
    orbit groups are filled in order without a gap: the second group is
    present only with the first, and the third only with the second. *)
Theorem ephemeris_groups_in_order (content : string) :
  Forall (fun e =>
            3 <= String.length (eph_satellite e) /\
            clock (eph_data e) <> None /\
            (orbit1 (eph_data e) <> None -> orbit0 (eph_data e) <> None) /\
            (orbit2 (eph_data e) <> None -> orbit1 (eph_data e) <> None))
         (parseRinexNavigation content).
Proof.
  unfold parseRinexNavigation. apply flushSat_invariant.
  generalize (splitLines content) as lines.
  assert (G : forall lines st, navInvariant st ->
                               navInvariant (fold_left navLine lines st)).
  { induction lines as [|line lines IH]; intros st I; [exact I|].
    cbn [fold_left]. apply IH. now apply navLine_invariant. }
  intros lines. apply G. split; [intros sat E; discriminate E | constructor].
Qed.

(** * Line endings *)

(** A line of text: no line feed in it and no carriage return at its end. *)
Fixpoint cleanLine (s : string) : bool :=
  match s with
  | EmptyString => true
  | String c s' =>
      negb (Ascii.eqb c "010") && negb (Ascii.eqb c "013" && isEmpty s')
      && cleanLine s'
  end.

(** The lines written one after the other with [sep] between them. *)
Fixpoint joinLines (sep : string) (lines : list string) : string :=
  match lines with
  | [] => ""
  | [l] => l
  | l :: rest => (l ++ sep ++ joinLines sep rest)%string
  end.

Definition CRLF : string := String "013" (String "010" "").

Lemma splitLines_last l : cleanLine l = true -> splitLines l = [l].
Proof.
  induction l as [|c l IH]; intros H; [reflexivity|].
  cbn [cleanLine] in H. apply andb_prop in H. destruct H as [H Hl].
  apply andb_prop in H. destruct H as [Hc Hr].
  apply negb_true_iff in Hc.
  cbn [splitLines]. rewrite Hc.
  destruct l as [|d l']; [reflexivity|].
  assert (Hd : Ascii.eqb d "010" = false).
  { cbn [cleanLine] in Hl. apply andb_prop in Hl. destruct Hl as [Hl _].
    apply andb_prop in Hl. destruct Hl as [Hl _]. now apply negb_true_iff. }
  rewrite Hd, andb_false_r. now rewrite (IH Hl).
Qed.

Lemma splitLines_LF l rest :
  cleanLine l = true ->
  splitLines (l ++ String "010" rest) = l :: splitLines rest.
Proof.
  induction l as [|c l IH]; intros H; [reflexivity|].
  cbn [cleanLine] in H. apply andb_prop in H. destruct H as [H Hl].
  apply andb_prop in H. destruct H as [Hc Hr].
  apply negb_true_iff in Hc. apply negb_true_iff in Hr.
  cbn [append splitLines]. rewrite Hc.
  destruct l as [|d l'].
  - cbn [append]. cbn [isEmpty] in Hr. rewrite andb_true_r in Hr.
    rewrite Hr. cbn [andb]. specialize (IH eq_refl). cbn [append] in IH.
    now rewrite IH.
  - assert (Hd : Ascii.eqb d "010" = false).
    { cbn [cleanLine] in Hl. apply andb_prop in Hl. destruct Hl as [Hl' _].
      apply andb_prop in Hl'. destruct Hl' as [Hl' _]. now apply negb_true_iff. }
    cbn [append]. rewrite Hd, andb_false_r.
    specialize (IH Hl). cbn [append] in IH. now rewrite IH.
Qed.

Lemma splitLines_CRLF l rest :
  cleanLine l = true ->
  splitLines (l ++ String "013" (String "010" rest)) = l :: splitLines rest.
Proof.
  induction l as [|c l IH]; intros H; [reflexivity|].
  cbn [cleanLine] in H. apply andb_prop in H. destruct H as [H Hl].
  apply andb_prop in H. destruct H as [Hc Hr].
  apply negb_true_iff in Hc.
  cbn [append splitLines]. rewrite Hc.
  destruct l as [|d l'].
  - cbn [append]. change (Ascii.eqb "013" "010") with false.
    rewrite andb_false_r. specialize (IH eq_refl). cbn [append] in IH.
    now rewrite IH.
  - assert (Hd : Ascii.eqb d "010" = false).
    { cbn [cleanLine] in Hl. apply andb_prop in Hl. destruct Hl as [Hl' _].
      apply andb_prop in Hl'. destruct Hl' as [Hl' _]. now apply negb_true_iff. }
    cbn [append]. rewrite Hd, andb_false_r.
    specialize (IH Hl). cbn [append] in IH. now rewrite IH.
Qed.

Lemma splitLines_joinLines sep lines :
  sep = LF \/ sep = CRLF ->
  lines <> [] -> forallb cleanLine lines = true ->
  splitLines (joinLines sep lines) = lines.
Proof.
  intros S. induction lines as [|l lines IH]; intros N H; [congruence|].
  cbn [forallb] in H. apply andb_prop in H. destruct H as [Hl H].
  destruct lines as [|l' lines'].
  - cbn [joinLines]. now apply splitLines_last.
  - change (joinLines sep (l :: l' :: lines'))
      with (l ++ sep ++ joinLines sep (l' :: lines'))%string.
    destruct S as [-> | ->].
    + change (LF ++ joinLines LF (l' :: lines'))%string
        with (String "010" (joinLines LF (l' :: lines'))).
      rewrite splitLines_LF by exact Hl. f_equal. apply IH; [discriminate|exact H].
    + change (CRLF ++ joinLines CRLF (l' :: lines'))%string
        with (String "013" (String "010" (joinLines CRLF (l' :: lines')))).
      rewrite splitLines_CRLF by exact Hl. f_equal.
      apply IH; [discriminate|exact H].
Qed.

(** X16: a file reads the same with Unix and with Windows line ends.  For
    lines that hold no line feed and do not end in a carriage return, the
    text with LF between the lines and the text with CR LF between them both
    split back into exactly those lines, so both parsers return the same for
    the two texts. *)
Theorem line_endings_do_not_matter (lines : list string) :
  lines <> [] -> forallb cleanLine lines = true ->
  splitLines (joinLines LF lines) = lines /\
  splitLines (joinLines CRLF lines) = lines /\
  parseRinexObservation (joinLines CRLF lines)
  = parseRinexObservation (joinLines LF lines) /\
  parseRinexNavigation (joinLines CRLF lines)
  = parseRinexNavigation (joinLines LF lines).
Proof.
  intros N H.
  pose proof (splitLines_joinLines LF lines (or_introl eq_refl) N H) as A.
  pose proof (splitLines_joinLines CRLF lines (or_intror eq_refl) N H) as B.
  repeat match goal with |- _ /\ _ => split end; [exact A | exact B | |].
  - unfold parseRinexObservation. now rewrite A, B.
  - unfold parseRinexNavigation. now rewrite A, B.
Qed.

Lemma line_endings_do_not_matter_witness :
  splitLines (joinLines CRLF ["     2.11   RINEX VERSION / TYPE"; "END OF HEADER"; ""])
  = ["     2.11   RINEX VERSION / TYPE"; "END OF HEADER"; ""].
Proof.
  apply (line_endings_do_not_matter
           ["     2.11   RINEX VERSION / TYPE"; "END OF HEADER"; ""]);
    [discriminate | reflexivity].
Defined.

(** * Satellite names of version 2 *)




(** * The year of a parsed epoch *)

(** The loop of [matches] on one item, from a count on. *)
Fixpoint runFrom (it : item) (rest : list item) (k : nat) (s : string) : bool :=
  if (if lo it <=? k then matches rest s else false) then true
  else if belowHi k (hi it) then
    match s with
    | String c s' => if cls it c then runFrom it rest (S k) s' else false
    | EmptyString => false
    end
  else false.

Lemma matches_cons it rest s : matches (it :: rest) s = runFrom it rest 0 s.
Proof.
  cbn [matches]. generalize 0. induction s as [|c s IH]; intros k.
  - reflexivity.
  - cbn [runFrom]. rewrite <- IH. reflexivity.
Qed.

Fixpoint allChars (f : ascii -> bool) (s : string) : bool :=
  match s with
  | EmptyString => true
  | String c s' => f c && allChars f s'
  end.

Lemma star_split f rest s : forall k,
  runFrom (star f) rest k s = true ->
  exists pre post, s = (pre ++ post)%string /\ allChars f pre = true /\
                   matches rest post = true.
Proof.
  induction s as [|c s IH]; intros k H; cbn [runFrom star lo hi cls belowHi] in H.
  - cbn [Nat.leb] in H. destruct (matches rest "") eqn:M; [|discriminate H].
    exists "", "". auto.
  - cbn [Nat.leb] in H. destruct (matches rest (String c s)) eqn:M.
    + exists "", (String c s). auto.
    + destruct (f c) eqn:F; [|discriminate H].
      destruct (IH _ H) as (pre & post & -> & A & B).
      exists (String c pre), post. cbn [append allChars]. rewrite F. auto.
Qed.

Lemma two_then_rest f rest s :
  runFrom (rep f 2 2) rest 0 s = true ->
  exists d1 d2 s', s = String d1 (String d2 s') /\ f d1 = true /\ f d2 = true /\
                   matches rest s' = true.
Proof.
  intros H. destruct s as [|d1 [|d2 s']];
    cbn [runFrom rep lo hi cls belowHi Nat.leb Nat.ltb] in H;
    try discriminate H.
  - destruct (f d1); discriminate H.
  - destruct (f d1) eqn:F1; [|discriminate H].
    destruct (f d2) eqn:F2; [|discriminate H].
    exists d1, d2, s'.
    destruct (matches rest s') eqn:M.
    + repeat split; assumption.
    + exfalso. destruct s'; cbn [runFrom rep lo hi cls belowHi Nat.leb Nat.ltb] in H;
        rewrite ?M in H; discriminate H.
Qed.

Lemma plus_head f rest s :
  runFrom (plus f) rest 0 s = true ->
  exists c s', s = String c s' /\ f c = true.
Proof.
  intros H. destruct s as [|c s'];
    cbn [runFrom plus lo hi cls belowHi Nat.leb] in H; [discriminate H|].
  destruct (f c) eqn:F; [|discriminate H]. now exists c, s'.
Qed.

Lemma digit_not_space c : isDigit c = true -> isSpace c = false.
Proof.
  unfold isDigit, isSpace. generalize (code c) as k. intros k H.
  apply andb_prop in H. destruct H as [A B].
  apply Nat.leb_le in A, B.
  destruct (9 <=? k) eqn:E1, (k <=? 13) eqn:E2, (k =? 32) eqn:E3,
           (k =? 160) eqn:E4; cbn; try reflexivity;
    repeat match goal with
           | H : (_ <=? _) = true |- _ => apply Nat.leb_le in H
           | H : (_ =? _) = true |- _ => apply Nat.eqb_eq in H
           end; lia.
Qed.

Lemma trimStart_spaces pre s :
  allChars isSpace pre = true -> trimStart (pre ++ s) = trimStart s.
Proof.
  induction pre as [|c pre IH]; intros H; [reflexivity|].
  cbn [allChars] in H. apply andb_prop in H. destruct H as [A B].
  cbn [append trimStart]. rewrite A. now apply IH.
Qed.

(** The first token of a line that matches the epoch pattern of version 2
    is its two leading digits. *)
Lemma epochRe2_first_token line :
  matches epochRe2 line = true ->
  exists d1 d2, isDigit d1 = true /\ isDigit d2 = true /\
                nth_error (splitWs (trim line)) 0 = Some (String d1 (String d2 "")).
Proof.
  unfold epochRe2. rewrite matches_cons. intros H.
  destruct (star_split _ _ _ _ H) as (ws & post & -> & W & M).
  rewrite matches_cons in M.
  destruct (two_then_rest _ _ _ M) as (d1 & d2 & s' & -> & D1 & D2 & M').
  rewrite matches_cons in M'.
  destruct (plus_head _ _ _ M') as (c & s'' & -> & C).
  exists d1, d2. split; [exact D1|]. split; [exact D2|].
  pose proof (digit_not_space _ D1) as N1.
  pose proof (digit_not_space _ D2) as N2.
  unfold trim. rewrite trimStart_spaces by exact W.
  cbn [trimStart]. rewrite N1.
  cbn [trimEnd allSpace]. rewrite N1, N2. cbn [andb].
  unfold splitWs. cbn [splitWsFrom]. rewrite N1, N2.
  destruct (isSpace c && allSpace s''); [reflexivity|].
  cbn [splitWsFrom]. rewrite C. reflexivity.
Qed.

Definition yearIn (lo hi : Z) (e : Epoch) : Prop :=
  exists y, year e = Some y /\ (lo <= y <= hi)%Z.

Lemma epoch2_year line :
  matches epochRe2 line = true ->
  yearIn 1980 2079 (epoch2 (splitWs (trim line))).
Proof.
  intros H. destruct (epochRe2_first_token line H) as (d1 & d2 & D1 & D2 & T).
  destruct (parseInt_two_digits d1 d2 D1 D2) as [P B].
  unfold yearIn, epoch2. cbn [year]. unfold parseIntAt. rewrite T, P.
  unfold pivotYear.
  destruct (_ <? 80)%Z eqn:E; [apply Z.ltb_lt in E | apply Z.ltb_ge in E].
  - eexists. split; [reflexivity | lia].
  - destruct (_ <? 100)%Z eqn:E'; [|apply Z.ltb_ge in E'; lia].
    eexists. split; [reflexivity | lia].
Qed.

(** The year of an epoch is a number other than zero. *)
Definition yearIsNumber (e : Epoch) : Prop :=
  exists y, year e = Some y /\ y <> 0%Z.

Lemma intOr_nonzero v d : d <> 0%Z -> intOr v d <> 0%Z.
Proof.
  intros H. unfold intOr. destruct v as [w|]; [|exact H].
  destruct (w =? 0)%Z eqn:E; [exact H | now apply Z.eqb_neq].
Qed.

Lemma obsLine_year st line rnd n :
  (forall e, currentEpoch st = Some e -> yearIsNumber e) ->
  forall e, currentEpoch (fst (obsLine st line rnd n)) = Some e -> yearIsNumber e.
Proof.
  intros H. unfold obsLine.
  destruct (isEmpty (trim line)); [exact H|].
  destruct (negb (headerComplete st)); [exact H|].
  destruct (geq (rinexVersion st) 3).
  - unfold obsBodyLine3. destruct (startsWith ">" line).
    { cbn. intros e E. injection E as <-. eexists. split; [reflexivity|].
      apply intOr_nonzero. discriminate. }
    destruct (_ && _); exact H.
  - unfold obsBodyLine2. destruct (matches epochRe2 line) eqn:M.
    { cbn. intros e E. injection E as <-.
      destruct (epoch2_year line M) as (y & Y & B). exists y. split; [exact Y|lia]. }
    destruct (currentEpoch st) eqn:C; [|cbn; congruence].
    destruct (_ && _); [|cbn; rewrite C; exact H].
    destruct (obsValues2 line); cbn; try rewrite C; exact H.
Qed.

Lemma obsLine_years st line rnd n :
  (forall e, currentEpoch st = Some e -> yearIsNumber e) ->
  Forall (fun o => yearIsNumber (epoch o)) (observations st) ->
  Forall (fun o => yearIsNumber (epoch o))
         (observations (fst (obsLine st line rnd n))).
Proof.
  intros C O.
  destruct (obsLine_observations st line rnd n) as [-> | ->]; [exact O|].
  apply flushEpoch_Forall; [exact O|]. intros e E _. now apply C.
Qed.

(** X18: the year of every epoch the observation parser returns is a
    number other than zero, never NaN; an epoch line of version 2 always
    starts with exactly two digits, so the year it produces lies between 1980
    and 2079. *)
Theorem parsed_years_are_numbers :
  (forall content rnd n,
      Forall (fun o => exists y, year (epoch o) = Some y /\ y <> 0%Z)
             (fst (parseRinexObservation content rnd n))) /\
  (forall st line rnd n,
      matches epochRe2 line = true ->
      exists e y, currentEpoch (fst (obsBodyLine2 st line rnd n)) = Some e /\
                  year e = Some y /\ (1980 <= y <= 2079)%Z).
Proof.
  split.
  - intros content rnd n.
    unfold parseRinexObservation, bind, ret. cbv zeta. cbn [fst].
    assert (G : forall lines st m,
               (forall e, currentEpoch st = Some e -> yearIsNumber e) ->
               Forall (fun o => yearIsNumber (epoch o)) (observations st) ->
               (forall e, currentEpoch (fst (foldM obsLine lines st rnd m)) = Some e ->
                          yearIsNumber e) /\
               Forall (fun o => yearIsNumber (epoch o))
                      (observations (fst (foldM obsLine lines st rnd m)))).
    { induction lines as [|line lines IH]; intros st m C O; [now split|].
      cbn [foldM]. unfold bind. cbv zeta. apply IH.
      - now apply obsLine_year.
      - now apply obsLine_years. }
    destruct (G (splitLines content) obsInit n) as [C O];
      [intros e E; discriminate E | constructor |].
    apply flushEpoch_Forall; [exact O|]. intros e E _. now apply C.
  - intros st line rnd n M. unfold obsBodyLine2. rewrite M.
    destruct (epoch2_year line M) as (y & Y & B).
    exists (epoch2 (splitWs (trim line))), y. cbn. auto.
Qed.

(** * Order of the flagged PDOP epochs and the reported average *)

Lemma positions_epochs obs eph rnd n :
  map pos_epoch (positionData (fst (generateRealisticResults obs eph rnd n)))
  = seq 0 (Nat.max 50 (List.length obs)).
Proof.
  rewrite positionData_generate, withJumps_map by reflexivity.
  apply mapM_genPosition_epochs.
Qed.

Lemma filtered_epochs_increasing (f : Position -> bool) l : forall a k,
  map pos_epoch l = seq a k ->
  StronglySorted lt (map pos_epoch (filter f l)) /\
  Forall (fun e => a <= e < a + k) (map pos_epoch (filter f l)).
Proof.
  induction l as [|p l IH]; intros a k H.
  - cbn. split; constructor.
  - destruct k as [|k]; [discriminate H|]. cbn [map seq] in H.
    injection H as Hp Hl. destruct (IH (S a) k Hl) as [Hs F].
    assert (F' : Forall (fun e => a <= e < a + S k) (map pos_epoch (filter f l))).
    { eapply Forall_impl; [|exact F]. cbn beta. intros e He. lia. }
    cbn [filter]. destruct (f p); [|now split].
    cbn [map]. split.
    + constructor; [exact Hs|]. eapply Forall_impl; [|exact F].
      cbn beta. intros e He. lia.
    + constructor; [lia | exact F'].
Qed.

Lemma avg_of_count k :
  10 <= k <= 12 ->
  (inject_Z (round (inject_Z (Z.of_nat k) * 0.8 * 10)) / 10
   == 0.8 * inject_Z (Z.of_nat k))%Q.
Proof.
  intros H.
  assert (C : k = 10 \/ k = 11 \/ k = 12) by lia.
  destruct C as [-> | [-> | ->]]; reflexivity.
Qed.

(** X19: highPdop lists its epochs in strictly increasing order, each one an
    epoch of the run (below totalEpochs); and avgSatellitesPerEpoch is 0.8
    times totalSatellites, a fixed share of the satellite count. *)
Theorem highPdop_increasing_and_average (obs : list Observation)
    (eph : list Ephemeris) (rnd : nat -> Q) (n : nat) :
  let results := fst (generateRealisticResults obs eph rnd n) in
  StronglySorted lt (highPdop results) /\
  Forall (fun e => e < totalEpochs (processingInfo results)) (highPdop results) /\
  (avgSatellitesPerEpoch (processingInfo results)
   == 0.8 * inject_Z (Z.of_nat (totalSatellites (processingInfo results))))%Q.
Proof.
  cbv zeta.
  set (results := fst (generateRealisticResults obs eph rnd n)).
  assert (P : highPdop results
              = map pos_epoch (filter (fun p => Qltb 6 (pdop p))
                                      (positionData results))) by reflexivity.
  assert (T : totalEpochs (processingInfo results)
              = Nat.max 50 (List.length obs)) by reflexivity.
  pose proof (positions_epochs obs eph rnd n) as E. fold results in E.
  destruct (filtered_epochs_increasing (fun p => Qltb 6 (pdop p))
              (positionData results) 0 _ E) as [S F].
  split; [rewrite P; exact S|]. split.
  - rewrite P, T. eapply Forall_impl; [|exact F]. cbn beta. intros e He. lia.
  - destruct (satelliteList_spec obs) as (_ & L & _).
    exact (avg_of_count (List.length (satelliteList obs)) L).
Qed.
